(** * The request-authorization pipeline of the OAuth secured Node API

    A shallow embedding of the parts of the API that decide how a request is
    authorized: reading the bearer token from the request, the introspection
    call and the memoized discovery metadata of [ClaimsHandler], the
    in-memory [ClaimsCache], the conversion of exceptions to typed errors of
    [ErrorUtils], and the strategy selection of [BaseCompositionRoot].

    JavaScript numbers that hold seconds and milliseconds are integers here
    ([Z]); strings are [string]; [null] and [undefined] results are [None].
    Promises are modelled by the value they settle with. *)

From Stdlib Require Import ZArith Lia String Ascii List Bool DecimalString DecimalPos DecimalZ.
From stdpp Require Import gmap strings list fin_maps.

Local Open Scope string_scope.
Local Open Scope Z_scope.

(** ** JavaScript values and promises *)

Module Js.

(** [if (s)] on a string: only the empty string is falsy. *)
Definition truthy_string (s : string) : bool :=
  match s with
  | EmptyString => false
  | String _ _ => true
  end.

(** The values a JSON field such as [active] can hold. *)
Inductive value : Type :=
| VUndefined
| VNull
| VBool (b : bool)
| VNumber (n : Z)
| VString (s : string).

(** [!!v] *)
Definition truthy (v : value) : bool :=
  match v with
  | VUndefined | VNull => false
  | VBool b => b
  | VNumber n => negb (n =? 0)
  | VString s => truthy_string s
  end.

(** [s.split(sep)] for a separator of one character: the pieces between
    the occurrences of [sep], empty pieces included; the empty string
    splits into one empty piece. *)
Fixpoint split (sep : ascii) (s : string) : list string :=
  match s with
  | EmptyString => [EmptyString]
  | String c rest =>
      if Ascii.eqb c sep then EmptyString :: split sep rest
      else match split sep rest with
           | [] => [String c EmptyString]
           | piece :: pieces => String c piece :: pieces
           end
  end.

(** [pieces.join(sep)] *)
Fixpoint join (sep : ascii) (pieces : list string) : string :=
  match pieces with
  | [] => EmptyString
  | [piece] => piece
  | piece :: more => piece +:+ String sep (join sep more)
  end.

(** [s.includes(c)] for one character. *)
Fixpoint includes (c : ascii) (s : string) : bool :=
  match s with
  | EmptyString => false
  | String d rest => Ascii.eqb d c || includes c rest
  end.

(** A settled promise: resolved with a value or rejected with a reason. *)
Inductive settled (E A : Type) : Type :=
| Resolved (a : A)
| Rejected (e : E).
Arguments Resolved {E A} a.
Arguments Rejected {E A} e.

(** [p.then(f)]: a rejection passes through untouched. *)
Definition then_ {E A B} (p : settled E A) (f : A -> settled E B) : settled E B :=
  match p with
  | Resolved a => f a
  | Rejected e => Rejected e
  end.

(** [p.catch(h)]: a resolved value passes through untouched; the handler
    sees every rejection of the chain before it. *)
Definition catch_ {E A} (p : settled E A) (h : E -> settled E A) : settled E A :=
  match p with
  | Resolved a => Resolved a
  | Rejected e => h e
  end.

End Js.

(** ** Outbound HTTP calls *)

Module Http.

(** What the network gives back for one outbound request. [Body] is the
    parsed JSON object of the response ([json: true]). *)
Inductive outcome (Body : Type) : Type :=
| TransportFailure (cause : string)
| Response (statusCode : Z) (body : Body).
Arguments TransportFailure {Body} cause.
Arguments Response {Body} statusCode body.

(** What a promise of this API can be rejected with: the failures of the
    HTTP client (request-promise: [RequestError] when no response arrived,
    [StatusCodeError] for a response outside 2xx), a [TypeError] of the
    runtime, or an error [handled] already produced by an error handler. *)
Inductive failure (handled : Type) : Type :=
| RequestError (cause : string)
| StatusCodeError (statusCode : Z)
| TypeError (message : string)
| Handled (e : handled).
Arguments RequestError {handled} cause.
Arguments StatusCodeError {handled} statusCode.
Arguments TypeError {handled} message.
Arguments Handled {handled} e.

Definition is2xx (statusCode : Z) : bool :=
  (200 <=? statusCode) && (statusCode <? 300).

(** [new RequestPromise(options)] with the client's defaults: resolved
    with the body for a 2xx response, rejected otherwise. *)
Definition RequestPromise {handled Body} (o : outcome Body)
  : Js.settled (failure handled) Body :=
  match o with
  | TransportFailure cause => Js.Rejected (RequestError cause)
  | Response statusCode body =>
      if is2xx statusCode then Js.Resolved body
      else Js.Rejected (StatusCodeError statusCode)
  end.

End Http.

(** ** The error taxonomy *)

Module Taxonomy.

(** The three ways authorization fails. An upstream failure records which
    remote call failed and where, for the log. *)
Inductive error : Type :=
| NoToken
| TokenInvalid
| UpstreamUnavailable (area : string) (url : string).

(** The two outcome classes a client can see. *)
Inductive class : Type :=
| AuthenticationFailure
| ServerFailure.

Definition classOf (e : error) : class :=
  match e with
  | NoToken | TokenInvalid => AuthenticationFailure
  | UpstreamUnavailable _ _ => ServerFailure
  end.

End Taxonomy.

(** ** ErrorHandler, as ClaimsHandler uses it *)

Module ErrorHandler.

Import Http.

(** The functions of [./errorHandler] that [ClaimsHandler] calls. *)
Class Ops (handled : Type) : Type := {
  getTokenExpiredError : failure handled;
  fromMetadataError : failure handled -> string -> failure handled;
  fromIntrospectionError : failure handled -> string -> failure handled;
  fromUserInfoError : failure handled -> string -> failure handled
}.

(** Modelled from the spec: the module [./errorHandler] is not among the
    sources. An error already in the taxonomy keeps its kind; any other
    failure of a remote call (transport failure, response outside 2xx,
    runtime error) becomes [UpstreamUnavailable] for that call. *)
Definition upstream (area : string) (e : failure Taxonomy.error) (url : string)
  : failure Taxonomy.error :=
  match e with
  | Handled known => Handled known
  | RequestError _ | StatusCodeError _ | TypeError _ =>
      Handled (Taxonomy.UpstreamUnavailable area url)
  end.

(** Modelled from the spec: the error handler of [./errorHandler], which
    is not among the sources. An inactive token is [TokenInvalid]. *)
#[export] Instance fromSpec : Ops Taxonomy.error := {
  getTokenExpiredError := Handled Taxonomy.TokenInvalid;
  fromMetadataError := upstream "metadata";
  fromIntrospectionError := upstream "introspection";
  fromUserInfoError := upstream "userinfo"
}.

End ErrorHandler.

(** ** ClaimsHandler: metadata, introspection and user info *)

Module ClaimsHandler.

Import Http.

Record OAuthConfig : Type := {
  authority : string;
  client_id : string;
  client_secret : string
}.

(** The discovery document, as far as the handler reads it. *)
Record Metadata : Type := {
  introspection_endpoint : string;
  userinfo_endpoint : string
}.

(** The body of an introspection response. *)
Record IntrospectionData : Type := {
  active : Js.value;
  exp : Js.value;
  sub : Js.value;
  cid : Js.value;
  scope : Js.value
}.

Record UserInfo : Type := {
  ui_given_name : Js.value;
  ui_family_name : Js.value;
  ui_email : Js.value
}.

Record Claims : Type := {
  userId : Js.value;
  applicationId : Js.value;
  claims_scope : Js.value;
  given_name : Js.value;
  family_name : Js.value;
  email : Js.value
}.

Record TokenData : Type := {
  td_exp : Js.value;
  td_claims : Claims
}.

Section WithErrorHandler.

Context {handled : Type} {errorHandler : ErrorHandler.Ops handled}.

Definition promise (A : Type) : Type := Js.settled (failure handled) A.

Definition metadataEndpoint (oauthConfig : OAuthConfig) : string :=
  authority oauthConfig +:+ "/.well-known/openid-configuration".

(** The two callbacks of [_getMetadata] on the discovery request. The
    resolved data is what the caller assigns to the module variable
    [metadata]. *)
Definition _getMetadata_settle (oauthConfig : OAuthConfig) (o : outcome Metadata)
  : promise Metadata :=
  Js.catch_
    (Js.then_ (RequestPromise o) (fun data => Js.Resolved data))
    (fun e => Js.Rejected
                (ErrorHandler.fromMetadataError e (metadataEndpoint oauthConfig))).

(** The two callbacks of [_readTokenData] on the introspection request
    to [endpoint]. The [catch] is chained after the [then], so it also
    receives the rejection the [then] callback makes. *)
Definition _readTokenData_settle (endpoint : string) (o : outcome IntrospectionData)
  : promise TokenData :=
  Js.catch_
    (Js.then_ (RequestPromise o) (fun data =>
       if negb (Js.truthy (active data))
       then Js.Rejected ErrorHandler.getTokenExpiredError
       else Js.Resolved
              {| td_exp := exp data;
                 td_claims := {| userId := sub data;
                                 applicationId := cid data;
                                 claims_scope := scope data;
                                 given_name := Js.VUndefined;
                                 family_name := Js.VUndefined;
                                 email := Js.VUndefined |} |}))
    (fun e => Js.Rejected (ErrorHandler.fromIntrospectionError e endpoint)).

(** [_readTokenData], given the module variable [metadata] and the
    outcome of the request it sends. Reading the endpoint of a [null]
    metadata throws before any request is made. *)
Definition _readTokenData (metadata : option Metadata) (o : outcome IntrospectionData)
  : promise TokenData :=
  match metadata with
  | None => Js.Rejected (TypeError "Cannot read property 'introspection_endpoint' of null")
  | Some m => _readTokenData_settle (introspection_endpoint m) o
  end.

(** The two callbacks of [_readCentralUserData]. *)
Definition _readCentralUserData_settle (endpoint : string) (tokenData : TokenData)
    (o : outcome UserInfo) : promise TokenData :=
  Js.catch_
    (Js.then_ (RequestPromise o) (fun userInfo =>
       let c := td_claims tokenData in
       Js.Resolved
         {| td_exp := td_exp tokenData;
            td_claims := {| userId := userId c;
                            applicationId := applicationId c;
                            claims_scope := claims_scope c;
                            given_name := ui_given_name userInfo;
                            family_name := ui_family_name userInfo;
                            email := ui_email userInfo |} |}))
    (fun e => Js.Rejected (ErrorHandler.fromUserInfoError e endpoint)).

Definition _readProductClaims (userData : TokenData) : promise TokenData :=
  Js.Resolved userData.

End WithErrorHandler.

End ClaimsHandler.

(** ** The process that runs ClaimsHandler

    The module variable [metadata] is shared by every [ClaimsHandler]; each
    request creates its own handler. A handler gives up control while one of
    its HTTP requests is in flight, so the requests of several handlers
    interleave. An event is either a new request calling [lookupClaims] or
    the arrival of the response a handler waits for; between two events the
    callbacks of one handler run to their next HTTP request. *)

Module Process.

Import Http ClaimsHandler.

(** The HTTP requests the process sends, in order. *)
Inductive sent : Type :=
| Discovery (uri : string)
| Introspection (uri : string) (token : string)
| UserInfoCall (uri : string) (token : string).

Section WithErrorHandler.

Context {handled : Type} {errorHandler : ErrorHandler.Ops handled}.
Variable oauthConfig : OAuthConfig.

(** Where a handler is in [lookupClaims]. *)
Inductive phase : Type :=
| AwaitingMetadata
| AwaitingIntrospection
| AwaitingUserInfo (tokenData : TokenData)
| Finished (result : promise (handled := handled) TokenData).

Record handler : Type := {
  accessToken : string;
  at_ : phase
}.

Record world : Type := {
  metadata : option Metadata;
  handlers : gmap nat handler;
  outbound : list sent
}.

Inductive event : Type :=
| LookupClaims (id : nat) (token : string)
| MetadataArrives (id : nat) (o : outcome Metadata)
| IntrospectionArrives (id : nat) (o : outcome IntrospectionData)
| UserInfoArrives (id : nat) (o : outcome UserInfo).

Definition initial : world :=
  {| metadata := None; handlers := ∅; outbound := [] |}.

Definition finish (w : world) (id : nat) (token : string)
    (result : promise TokenData) : world :=
  {| metadata := metadata w;
     handlers := <[id := {| accessToken := token; at_ := Finished result |}]> (handlers w);
     outbound := outbound w |}.

(** [_readTokenData] starts: it reads the module variable and sends the
    introspection request. *)
Definition start_readTokenData (w : world) (id : nat) (token : string) : world :=
  match metadata w with
  | None =>
      finish w id token
        (Js.Rejected (TypeError "Cannot read property 'introspection_endpoint' of null"))
  | Some m =>
      {| metadata := metadata w;
         handlers :=
           <[id := {| accessToken := token; at_ := AwaitingIntrospection |}]> (handlers w);
         outbound := outbound w ++ [Introspection (introspection_endpoint m) token] |}
  end.

(** [_readCentralUserData] starts. *)
Definition start_readCentralUserData (w : world) (id : nat) (token : string)
    (tokenData : TokenData) : world :=
  match metadata w with
  | None =>
      finish w id token
        (Js.Rejected (TypeError "Cannot read property 'userinfo_endpoint' of null"))
  | Some m =>
      {| metadata := metadata w;
         handlers :=
           <[id := {| accessToken := token; at_ := AwaitingUserInfo tokenData |}]> (handlers w);
         outbound := outbound w ++ [UserInfoCall (userinfo_endpoint m) token] |}
  end.

(** [lookupClaims] on a new handler: [_getMetadata] either resolves with
    the memoized metadata, and [_readTokenData] follows, or sends the
    discovery request. *)
Definition lookupClaims (w : world) (id : nat) (token : string) : world :=
  match metadata w with
  | Some _ => start_readTokenData w id token
  | None =>
      {| metadata := None;
         handlers := <[id := {| accessToken := token; at_ := AwaitingMetadata |}]> (handlers w);
         outbound := outbound w ++ [Discovery (metadataEndpoint oauthConfig)] |}
  end.

Definition step (w : world) (e : event) : option world :=
  match e with
  | LookupClaims id token =>
      match handlers w !! id with
      | None => Some (lookupClaims w id token)
      | Some _ => None
      end
  | MetadataArrives id o =>
      match handlers w !! id with
      | Some {| accessToken := token; at_ := AwaitingMetadata |} =>
          match _getMetadata_settle oauthConfig o with
          | Js.Resolved data =>
              Some (start_readTokenData
                      {| metadata := Some data;
                         handlers := handlers w;
                         outbound := outbound w |} id token)
          | Js.Rejected e => Some (finish w id token (Js.Rejected e))
          end
      | _ => None
      end
  | IntrospectionArrives id o =>
      match handlers w !! id with
      | Some {| accessToken := token; at_ := AwaitingIntrospection |} =>
          match _readTokenData (metadata w) o with
          | Js.Resolved tokenData => Some (start_readCentralUserData w id token tokenData)
          | Js.Rejected e => Some (finish w id token (Js.Rejected e))
          end
      | _ => None
      end
  | UserInfoArrives id o =>
      match handlers w !! id with
      | Some {| accessToken := token; at_ := AwaitingUserInfo tokenData |} =>
          match metadata w with
          | Some m =>
              Some (finish w id token
                      (Js.then_ (_readCentralUserData_settle (userinfo_endpoint m) tokenData o)
                                _readProductClaims))
          | None =>
              Some (finish w id token
                      (Js.Rejected (TypeError "Cannot read property 'userinfo_endpoint' of null")))
          end
      | _ => None
      end
  end.

Fixpoint run (w : world) (events : list event) : option world :=
  match events with
  | [] => Some w
  | e :: later =>
      match step w e with
      | Some w' => run w' later
      | None => None
      end
  end.

Definition isDiscovery (s : sent) : bool :=
  match s with
  | Discovery _ => true
  | _ => false
  end.

(** How many discovery requests the process has sent. *)
Definition discoveryRequests (w : world) : nat :=
  length (filter (fun s => isDiscovery s = true) (outbound w)).

(** How many discovery documents arrived among the events. *)
Fixpoint metadataFetched (events : list event) : nat :=
  match events with
  | [] => 0%nat
  | MetadataArrives _ (Response statusCode _) :: later =>
      ((if is2xx statusCode then 1 else 0) + metadataFetched later)%nat
  | _ :: later => metadataFetched later
  end.

(** A handler holds claims: its [lookupClaims] resolved. *)
Definition served (w : world) (id : nat) : Prop :=
  exists token tokenData,
    handlers w !! id = Some {| accessToken := token; at_ := Finished (Js.Resolved tokenData) |}.

End WithErrorHandler.

End Process.

(** ** ErrorUtils: converting an exception to a typed error *)

Module ErrorUtils.

(** The strings of [BaseErrorCodes], which is declared outside the
    sources at hand. *)
Class BaseErrorCodes : Type := {
  serverError : string;
  claimsFailure : string
}.

(** Modelled from the spec: the class [ApiError] is declared outside the
    sources at hand. It is the server-side error of the taxonomy, the one
    answered with HTTP 500. *)
Record ApiError : Type := {
  statusCode : Z;
  code : string;
  message : string;
  stack : option string;
  details : string
}.

Record ClientError : Type := {
  clientStatusCode : Z;
  errorCode : string;
  clientMessage : string
}.

(** The technology neutral error of [framework-base]. *)
Record ExtendedError : Type := {
  ext_code : string;
  ext_message : string;
  ext_stack : option string;
  ext_details : option string
}.

(** Any other object or primitive that was thrown, by what the conversion
    reads of it: [stack], [message] and the result of [toString()], which
    is [None] for an object that has no [toString] to call (one created
    with a [null] prototype, for instance): calling it throws. *)
Record Thrown : Type := {
  thrown_stack : option string;
  thrown_message : option string;
  thrown_toString : option string
}.

(** The value caught, of type [any]. *)
Inductive exception : Type :=
| IsNullish
| IsApiError (e : ApiError)
| IsExtendedError (e : ExtendedError)
| IsClientError (e : ClientError)
| IsOther (e : Thrown).

(** A call either returns or throws a [TypeError]. *)
Inductive completion (A : Type) : Type :=
| Return (a : A)
| Throw (typeError : string).
Arguments Return {A} a.
Arguments Throw {A} typeError.

(** Modelled from the spec: [ErrorFactory.createApiError] is declared
    outside the sources at hand; it builds the HTTP 500 error, with no
    details yet. *)
Definition ErrorFactory_createApiError (errorCode userMessage : string)
    (stack : option string) : ApiError :=
  {| statusCode := 500;
     code := errorCode;
     message := userMessage;
     stack := stack;
     details := "" |}.

Definition setDetails (e : ApiError) (d : string) : ApiError :=
  {| statusCode := statusCode e;
     code := code e;
     message := message e;
     stack := stack e;
     details := d |}.

(** [a || b] on strings that may be [undefined]. *)
Definition orDefault (given : option string) (default : string) : string :=
  match given with
  | Some s => if Js.truthy_string s then s else default
  | None => default
  end.

(** [toString()] of an [Error] with the given message. *)
Definition errorToString (message : string) : string :=
  if Js.truthy_string message then "Error: " +:+ message else "Error".

Definition defaultMessage : string := "An unexpected exception occurred in the API".

Section WithCodes.

Context {codes : BaseErrorCodes}.

(** [e.toString()] and the comparison with the text of a plain object. *)
Definition detailsOfToString (e : Thrown) : completion string :=
  match thrown_toString e with
  | Some details =>
      if bool_decide (details = "[object Object]") then Return "" else Return details
  | None => Throw "e.toString is not a function"
  end.

Definition _getExceptionDetailsMessage (e : Thrown) : completion string :=
  match thrown_message e with
  | Some m => if Js.truthy_string m then Return m else detailsOfToString e
  | None => detailsOfToString e
  end.

(** What [createApiError] reads of the exception: [exception.stack],
    [e.message] and [e.toString()]. Reading a property of [null] or
    [undefined] throws. *)
Definition observe (e : exception) : completion Thrown :=
  match e with
  | IsNullish => Throw "Cannot read property 'stack' of null"
  | IsApiError a =>
      Return {| thrown_stack := stack a;
                thrown_message := Some (message a);
                thrown_toString := Some (errorToString (message a)) |}
  | IsExtendedError x =>
      Return {| thrown_stack := ext_stack x;
                thrown_message := Some (ext_message x);
                thrown_toString := Some (errorToString (ext_message x)) |}
  | IsClientError c =>
      Return {| thrown_stack := None;
                thrown_message := Some (clientMessage c);
                thrown_toString := Some (errorToString (clientMessage c)) |}
  | IsOther o => Return o
  end.

Definition createApiError (e : exception) (errorCode message : option string)
  : completion ApiError :=
  match observe e with
  | Throw t => Throw t
  | Return o =>
      let error :=
        ErrorFactory_createApiError
          (orDefault errorCode serverError)
          (orDefault message defaultMessage)
          (thrown_stack o) in
      match _getExceptionDetailsMessage o with
      | Return details => Return (setDetails error details)
      | Throw t => Throw t
      end
  end.

Definition fromMissingClaim (claimName : string) : ApiError :=
  setDetails
    (ErrorFactory_createApiError claimsFailure "Authorization Data Not Found" None)
    ("An empty value was found for the expected claim " +:+ claimName).

Definition tryConvertToApiError (e : exception) : option ApiError :=
  match e with
  | IsApiError a => Some a
  | IsExtendedError error =>
      let apiError :=
        ErrorFactory_createApiError (ext_code error) (ext_message error) (ext_stack error) in
      match ext_details error with
      | Some d => if Js.truthy_string d then Some (setDetails apiError d) else Some apiError
      | None => Some apiError
      end
  | _ => None
  end.

Definition tryConvertToClientError (e : exception) : option ClientError :=
  match e with
  | IsClientError c => Some c
  | _ => None
  end.

Definition fromException (e : exception) : completion (ApiError + ClientError) :=
  match tryConvertToApiError e with
  | Some apiError => Return (inl apiError)
  | None =>
      match tryConvertToClientError e with
      | Some clientError => Return (inr clientError)
      | None =>
          match createApiError e None None with
          | Return apiError => Return (inl apiError)
          | Throw t => Throw t
          end
      end
  end.

(** The HTTP status a typed error is answered with. *)
Definition httpStatus (e : ApiError + ClientError) : Z :=
  match e with
  | inl apiError => statusCode apiError
  | inr clientError => clientStatusCode clientError
  end.

(** The exception is none of the taxonomy's typed errors. *)
Definition untyped (e : exception) : Prop :=
  match e with
  | IsApiError _ | IsExtendedError _ | IsClientError _ => False
  | IsNullish | IsOther _ => True
  end.

(** The thrown value has a message that is not empty. *)
Definition hasMessage (o : Thrown) : bool :=
  match thrown_message o with
  | Some m => Js.truthy_string m
  | None => false
  end.

(** The conversion can read the details of the thrown value: it has a
    message that is not empty or a [toString] to call. *)
Definition readable (e : exception) : Prop :=
  match e with
  | IsNullish => False
  | IsOther o => hasMessage o = true \/ is_Some (thrown_toString o)
  | IsApiError _ | IsExtendedError _ | IsClientError _ => True
  end.

End WithCodes.

End ErrorUtils.

(** ** WebApi: the authorization entry point and the exception handler *)

Module WebApi.

Import ErrorUtils.

Record Body : Type := {
  bodyCode : string;
  bodyMessage : string
}.

Record Response : Type := {
  status : Z;
  body : Body
}.

(** How the handling of one request ends at the authorization step:
    control passes to the controller with the claims in
    [response.locals], a response is written, or the exception handler
    itself throws. *)
Inductive handled (Claims : Type) : Type :=
| Next (claims : Claims)
| Responded (r : Response)
| Crashed (typeError : string).
Arguments Next {Claims} claims.
Arguments Responded {Claims} r.
Arguments Crashed {Claims} typeError.

(** [_readAccessToken]: [request.header('authorization')] is a string or
    [undefined]; the result is the token or [null]. *)
Definition _readAccessToken (authorizationHeader : option string) : option string :=
  match authorizationHeader with
  | Some header =>
      if Js.truthy_string header then
        let parts := Js.split " " header in
        if (length parts =? 2)%nat && bool_decide (parts !! 0%nat = Some "Bearer")
        then parts !! 1%nat
        else None
      else None
  | None => None
  end.

(** Modelled from the spec: [ResponseWriter] is not among the sources.
    The response for a missing, expired or invalid token is a 401 with
    one fixed body. *)
Definition writeInvalidTokenResponse : Response :=
  {| status := 401;
     body := {| bodyCode := "unauthorized";
                bodyMessage := "Missing, invalid or expired access token" |} |}.

Definition writeObjectResponse (statusCode : Z) (data : Body) : Response :=
  {| status := statusCode; body := data |}.

Definition toResponseFormat (e : ClientError) : Body :=
  {| bodyCode := errorCode e; bodyMessage := clientMessage e |}.

(** Modelled from the spec: [ApiError.toClientError] is not among the
    sources. The client sees the status, the error code and the generic
    message; stack and details stay in the log. *)
Definition toClientError (e : ApiError) : ClientError :=
  {| clientStatusCode := statusCode e;
     errorCode := code e;
     clientMessage := message e |}.

Section WithCollaborators.

Context {Claims : Type} {codes : BaseErrorCodes}.

(** The token validator and claims lookup behind the middleware: what
    they give for a token that is present. *)
Variable validate : string -> Js.settled Taxonomy.error Claims.

(** [new BasicApiClaims()] *)
Variable emptyClaims : Claims.

(** Modelled from the spec: the authorization state machine. An absent
    or empty token is [NoToken]; otherwise the validator decides. *)
Definition authorize (accessToken : option string) : Js.settled Taxonomy.error Claims :=
  match accessToken with
  | None => Js.Rejected Taxonomy.NoToken
  | Some token =>
      if Js.truthy_string token then validate token
      else Js.Rejected Taxonomy.NoToken
  end.

(** Modelled from the spec: the error thrown for an upstream failure,
    with the failing call in its details. *)
Definition upstreamError (area url : string) : ApiError :=
  setDetails
    (ErrorFactory_createApiError serverError "Problem encountered in the API" None)
    (area +:+ ": " +:+ url).

(** Modelled from the spec: [ClaimsMiddleware] is not among the
    sources. Its promise resolves with [true] and the claims, resolves
    with [false] for a missing, expired or invalid token, and is
    rejected for any other failure. *)
Definition authorizeRequestAndSetClaims (accessToken : option string)
  : Js.settled exception (bool * Claims) :=
  match authorize accessToken with
  | Js.Resolved claims => Js.Resolved (true, claims)
  | Js.Rejected Taxonomy.NoToken
  | Js.Rejected Taxonomy.TokenInvalid => Js.Resolved (false, emptyClaims)
  | Js.Rejected (Taxonomy.UpstreamUnavailable area url) =>
      Js.Rejected (IsApiError (upstreamError area url))
  end.

(** [authorizationHandler]: the promise of the async function. *)
Definition authorizationHandler (authorizationHeader : option string)
  : Js.settled exception (handled Claims) :=
  let accessToken := _readAccessToken authorizationHeader in
  Js.then_ (authorizeRequestAndSetClaims accessToken) (fun '(success, claims) =>
    if success then Js.Resolved (Next claims)
    else Js.Resolved (Responded writeInvalidTokenResponse)).

(** Modelled from the spec: [ErrorHandler.handleError] of
    [framework/errors] is not among the sources; the conversion is that
    of [ErrorUtils.fromException], and an [ApiError] is reduced to what
    the client may see. *)
Definition handleError (e : exception) : completion ClientError :=
  match fromException e with
  | Return (inl apiError) => Return (toClientError apiError)
  | Return (inr clientError) => Return clientError
  | Throw t => Throw t
  end.

(** [unhandledExceptionHandler] *)
Definition unhandledExceptionHandler (unhandledException : exception) : handled Claims :=
  match handleError unhandledException with
  | Return clientError =>
      Responded (writeObjectResponse (clientStatusCode clientError)
                                     (toResponseFormat clientError))
  | Throw t => Crashed t
  end.

(** The [catcher] wrapper of [HttpConfiguration.initializeApi] around a
    handler: a rejection goes to the exception handler. *)
Definition catcher (run : Js.settled exception (handled Claims)) : handled Claims :=
  match run with
  | Js.Resolved h => h
  | Js.Rejected e => unhandledExceptionHandler e
  end.

(** A request through [catcher(this._webApi.authorizationHandler)]. *)
Definition authorizeRequest (authorizationHeader : option string) : handled Claims :=
  catcher (authorizationHandler authorizationHeader).

(** The authorization outcome of a request. *)
Definition outcome (authorizationHeader : option string)
  : Js.settled Taxonomy.error Claims :=
  authorize (_readAccessToken authorizationHeader).

End WithCollaborators.

End WebApi.

(** ** The node-cache library, as ClaimsCache uses it

    [get], [set] and the options of a [NodeCache] created with only
    [stdTTL] given: values are kept with the instant, in milliseconds, after
    which they count as expired; the instant 0 stands for no expiry. The
    clock is read by the caller and passed as [now] (milliseconds). *)

Module NodeCache.

Record wrapped : Type := {
  t : Z;
  v : string
}.

Record cache : Type := {
  stdTTL : Z;
  data : gmap string wrapped
}.

Definition create (stdTTL : Z) : cache :=
  {| stdTTL := stdTTL; data := ∅ |}.

(** The expiry instant for a time-to-live in seconds: a ttl of 0 is no
    expiry, an absent ttl is the standard one. *)
Definition livetime (c : cache) (now : Z) (ttl : option Z) : Z :=
  match ttl with
  | Some seconds => if seconds =? 0 then 0 else now + seconds * 1000
  | None => if stdTTL c =? 0 then 0 else now + stdTTL c * 1000
  end.

Definition _wrap (c : cache) (now : Z) (value : string) (ttl : option Z) : wrapped :=
  {| t := livetime c now ttl; v := value |}.

(** [set(key, value, ttl)] stores the value, replacing what the key held. *)
Definition set (c : cache) (now : Z) (key value : string) (ttl : option Z) : cache :=
  {| stdTTL := stdTTL c;
     data := <[key := _wrap c now value ttl]> (data c) |}.

(** [_check]: is the entry still alive at [now]? *)
Definition _check (now : Z) (w : wrapped) : bool :=
  negb (negb (t w =? 0) && (t w <? now)).

(** [get(key)]: the value of a live entry; an expired entry is deleted
    and gives [undefined]. *)
Definition get (c : cache) (now : Z) (key : string) : option string * cache :=
  match data c !! key with
  | Some w =>
      if _check now w then (Some (v w), c)
      else (None, {| stdTTL := stdTTL c; data := delete key (data c) |})
  | None => (None, c)
  end.

End NodeCache.

(** ** Claims *)

Module Claims.

(** Modelled from the spec: the claims classes are declared outside the
    sources at hand. The baseline claims of a token are its subject, the
    client application, the scope and the numeric expiry in epoch
    seconds. *)
Record TokenClaims : Type := {
  subject : string;
  clientId : string;
  scope : string;
  expiry : Z
}.

Record UserInfoClaims : Type := {
  givenName : string;
  familyName : string;
  email : string
}.

(** Modelled from the spec: the resolved claims are the baseline claims
    plus the fields the claims provider adds. *)
Record ApiClaims : Type := {
  token : TokenClaims;
  userInfo : UserInfoClaims
}.

(** The interface [ClaimsProvider], as far as the cache calls it. *)
Class ClaimsProvider : Type := {
  serializeToCache : ApiClaims -> string;
  deserializeFromCache : string -> ApiClaims
}.

End Claims.

(** ** ClaimsCache *)

Module ClaimsCache.

Import Claims.

(** The constructor: the maximum time to live, in seconds. *)
Definition create (timeToLiveMinutes : Z) : NodeCache.cache :=
  let defaultExpirySeconds := timeToLiveMinutes * 60 in
  NodeCache.create defaultExpirySeconds.

(** [Math.floor(new Date() / 1000)] *)
Definition epochSeconds (now : Z) : Z := now / 1000.

(** The time to live [addClaimsForToken] passes to the cache, when it
    stores at all. *)
Definition secondsToCache (c : NodeCache.cache) (now : Z) (claims : ApiClaims) : option Z :=
  let secondsToCache := expiry (token claims) - epochSeconds now in
  if 0 <? secondsToCache then
    if NodeCache.stdTTL c <? secondsToCache
    then Some (NodeCache.stdTTL c)
    else Some secondsToCache
  else None.

Section WithProvider.

Context {claimsProvider : ClaimsProvider}.

(** [getClaimsForToken]: the claims and the cache after the lookup. *)
Definition getClaimsForToken (c : NodeCache.cache) (now : Z) (accessTokenHash : string)
  : option ApiClaims * NodeCache.cache :=
  let '(claimsText, c') := NodeCache.get c now accessTokenHash in
  match claimsText with
  | Some text =>
      if Js.truthy_string text then (Some (deserializeFromCache text), c')
      else (None, c')
  | None => (None, c')
  end.

(** [addClaimsForToken]: the cache after the call. The code reads the clock
    twice: [new Date()] for the seconds left to the token, at [now], and the
    [Date.now()] of node-cache inside [set], at [setNow], from which the
    entry's expiry instant is counted. *)
Definition addClaimsForTokenAt (c : NodeCache.cache) (now setNow : Z)
    (accessTokenHash : string) (claims : ApiClaims) : NodeCache.cache :=
  match secondsToCache c now claims with
  | Some seconds =>
      let claimsText := serializeToCache claims in
      NodeCache.set c setNow accessTokenHash claimsText (Some seconds)
  | None => c
  end.

(** [addClaimsForToken] when both readings of the clock fall in the same
    millisecond. *)
Definition addClaimsForToken (c : NodeCache.cache) (now : Z) (accessTokenHash : string)
    (claims : ApiClaims) : NodeCache.cache :=
  match secondsToCache c now claims with
  | Some seconds =>
      let claimsText := serializeToCache claims in
      NodeCache.set c now accessTokenHash claimsText (Some seconds)
  | None => c
  end.

(** The operations of the cache. *)
Inductive operation : Type :=
| Get (now : Z) (accessTokenHash : string)
| Add (now : Z) (accessTokenHash : string) (claims : ApiClaims).

Definition apply (c : NodeCache.cache) (op : operation) : NodeCache.cache :=
  match op with
  | Get now h => snd (getClaimsForToken c now h)
  | Add now h claims => addClaimsForToken c now h claims
  end.

(** The operation is a put that stores under the given digest. *)
Definition storesUnder (c : NodeCache.cache) (op : operation) (h : string) : Prop :=
  match op with
  | Get _ _ => False
  | Add now h' claims => h' = h /\ is_Some (secondsToCache c now claims)
  end.

(** The expiry instant of the entry a digest has, if it has one. *)
Definition expiryInstant (c : NodeCache.cache) (h : string) : option Z :=
  NodeCache.t <$> NodeCache.data c !! h.

End WithProvider.

End ClaimsCache.

(** ** The claims caching authorizer *)

Module ClaimsCachingAuthorizer.

Import Claims.

Section WithCollaborators.

Context {claimsProvider : ClaimsProvider}.

(** The one-way hash of the access token (sha256). *)
Variable digest : string -> string.

(** The claims assembler: user info and custom claims for validated
    baseline claims. *)
Variable assemble : TokenClaims -> ApiClaims.

Record state : Type := {
  cache : NodeCache.cache;
  assemblerCalls : nat
}.

(** Modelled from the spec: [ClaimsCachingAuthorizer] is not among the
    sources. For a token that passed validation: a cache hit gives the
    cached claims; a miss calls the assembler and stores the result
    under the digest of the token. *)
Definition resolveClaims (s : state) (now : Z) (accessToken : string)
    (baseline : TokenClaims) : ApiClaims * state :=
  let accessTokenHash := digest accessToken in
  let '(cached, c) := ClaimsCache.getClaimsForToken (cache s) now accessTokenHash in
  match cached with
  | Some claims => (claims, {| cache := c; assemblerCalls := assemblerCalls s |})
  | None =>
      let claims := assemble baseline in
      (claims,
       {| cache := ClaimsCache.addClaimsForToken c now accessTokenHash claims;
          assemblerCalls := S (assemblerCalls s) |})
  end.


End WithCollaborators.

End ClaimsCachingAuthorizer.

(** ** BaseCompositionRoot: registering the OAuth and claims dependencies *)

Module BaseCompositionRoot.

#[export] Instance value_eq_dec : EqDecision Js.value.
Proof. solve_decision. Defined.

(** The OAuth section of the configuration file. The file is parsed as
    JSON and not checked, so a strategy field holds any JSON value. *)
Record OAuthConfiguration : Type := {
  strategy : Js.value;
  tokenValidationStrategy : Js.value;
  jwksEndpoint : string;
  claimsCacheTimeToLiveMinutes : Z
}.

Inductive authorizerClass : Type :=
| ClaimsCachingAuthorizer
| StandardAuthorizer.

Record BaseAuthorizer : Type := {
  class : authorizerClass;
  unsecuredPaths : list string
}.

(** The identifiers of [BASETYPES] that the root binds. *)
Inductive serviceId : Type :=
| UnhandledExceptionHandlerId
| LoggerFactoryId
| LoggingConfigurationId
| HttpProxyId
| LogEntryId
| OAuthConfigurationId
| OAuthAuthenticatorId
| TokenValidatorId
| JwksClientId
| ClaimsCacheId
| ClaimsProviderId
| BaseClaimsId
| UserInfoClaimsId
| CustomClaimsId.

#[export] Instance serviceId_eq_dec : EqDecision serviceId.
Proof. solve_decision. Defined.

(** The classes bound per request. *)
Inductive implementation : Type :=
| OAuthAuthenticator
| IntrospectionValidator
| JwtValidator.

(** The constants bound as singletons. *)
Inductive constant : Type :=
| TheExceptionHandler
| TheLoggerFactory
| TheLoggingConfiguration
| TheHttpProxy
| TheOAuthConfiguration (c : OAuthConfiguration)
| TheJwksClient (jwksUri : string) (proxy : option string)
| TheClaimsCache (cache : NodeCache.cache)
| TheClaimsProvider
| Dummy.

Inductive binding : Type :=
| toConstantValue (value : constant)
| toInRequestScope (cls : implementation).

(** The container: the bindings in the order they were made. *)
Definition Container : Type := list (serviceId * binding).

Definition bind (container : Container) (id : serviceId) (b : binding) : Container :=
  (container ++ [(id, b)])%list.

(** The root once the builder methods have received the configuration,
    the claims provider, the logging objects and the proxy details. *)
Record root : Type := {
  _container : Container;
  _unsecuredPaths : list string;
  _oauthConfiguration : OAuthConfiguration;
  _authorizer : option BaseAuthorizer;
  _proxyUrl : string
}.

Definition _registerBaseDependencies (r : root) : root :=
  let c := _container r in
  let c := bind c UnhandledExceptionHandlerId (toConstantValue TheExceptionHandler) in
  let c := bind c LoggerFactoryId (toConstantValue TheLoggerFactory) in
  let c := bind c LoggingConfigurationId (toConstantValue TheLoggingConfiguration) in
  let c := bind c HttpProxyId (toConstantValue TheHttpProxy) in
  let c := bind c LogEntryId (toConstantValue Dummy) in
  {| _container := c;
     _unsecuredPaths := _unsecuredPaths r;
     _oauthConfiguration := _oauthConfiguration r;
     _authorizer := _authorizer r;
     _proxyUrl := _proxyUrl r |}.

Definition _registerOAuthDependencies (r : root) : root :=
  let authorizerClass :=
    if bool_decide (strategy (_oauthConfiguration r) = Js.VString "claims-caching")
    then ClaimsCachingAuthorizer
    else StandardAuthorizer in
  let authorizer := {| class := authorizerClass; unsecuredPaths := _unsecuredPaths r |} in
  let c := _container r in
  let c := bind c OAuthConfigurationId
             (toConstantValue (TheOAuthConfiguration (_oauthConfiguration r))) in
  let c := bind c OAuthAuthenticatorId (toInRequestScope OAuthAuthenticator) in
  let c :=
    if bool_decide (tokenValidationStrategy (_oauthConfiguration r) = Js.VString "introspection")
    then bind c TokenValidatorId (toInRequestScope IntrospectionValidator)
    else
      let proxyUrl := _proxyUrl r in
      let jwksClient :=
        TheJwksClient (jwksEndpoint (_oauthConfiguration r))
                      (if Js.truthy_string proxyUrl then Some proxyUrl else None) in
      let c := bind c JwksClientId (toConstantValue jwksClient) in
      bind c TokenValidatorId (toInRequestScope JwtValidator) in
  {| _container := c;
     _unsecuredPaths := _unsecuredPaths r;
     _oauthConfiguration := _oauthConfiguration r;
     _authorizer := Some authorizer;
     _proxyUrl := _proxyUrl r |}.

Definition _registerClaimsDependencies (r : root) : root :=
  let c := _container r in
  let c :=
    if bool_decide (strategy (_oauthConfiguration r) = Js.VString "claims-caching")
    then
      let claimsCache :=
        ClaimsCache.create (claimsCacheTimeToLiveMinutes (_oauthConfiguration r)) in
      bind c ClaimsCacheId (toConstantValue (TheClaimsCache claimsCache))
    else c in
  let c := bind c ClaimsProviderId (toConstantValue TheClaimsProvider) in
  let c := bind c BaseClaimsId (toConstantValue Dummy) in
  let c := bind c UserInfoClaimsId (toConstantValue Dummy) in
  let c := bind c CustomClaimsId (toConstantValue Dummy) in
  {| _container := c;
     _unsecuredPaths := _unsecuredPaths r;
     _oauthConfiguration := _oauthConfiguration r;
     _authorizer := _authorizer r;
     _proxyUrl := _proxyUrl r |}.

Definition register (r : root) : root :=
  _registerClaimsDependencies
    (_registerOAuthDependencies
       (_registerBaseDependencies r)).

(** A root on an empty container, after the builder calls. *)
Definition configured (oauthConfiguration : OAuthConfiguration)
    (unsecured : list string) (proxyUrl : string) : root :=
  {| _container := [];
     _unsecuredPaths := unsecured;
     _oauthConfiguration := oauthConfiguration;
     _authorizer := None;
     _proxyUrl := proxyUrl |}.

(** What the container holds for an identifier. *)
Definition bound (container : Container) (id : serviceId) : list binding :=
  snd <$> filter (fun entry => fst entry = id) container.

End BaseCompositionRoot.

(** ** A claims provider to run the cache with *)

Module SampleProvider.

Import Claims.

(** The digits of a number of seconds. *)
Definition digits (n : Z) : string :=
  DecimalString.NilZero.string_of_int (Z.to_int n).

Definition number (s : string) : Z :=
  match DecimalString.NilZero.int_of_string s with
  | Some i => Z.of_int i
  | None => 0
  end.

Definition fields (claims : ApiClaims) : list string :=
  [ digits (expiry (token claims));
    subject (token claims);
    clientId (token claims);
    scope (token claims);
    givenName (userInfo claims);
    familyName (userInfo claims);
    email (userInfo claims) ].

Definition noClaims : ApiClaims :=
  {| token := {| subject := ""; clientId := ""; scope := ""; expiry := 0 |};
     userInfo := {| givenName := ""; familyName := ""; email := "" |} |}.

(** The claims as one line of fields separated by bars, and back. *)
#[export] Instance provider : ClaimsProvider := {
  serializeToCache claims := Js.join "|" (fields claims);
  deserializeFromCache text :=
    match Js.split "|" text with
    | [e; s; c; sc; g; f; m] =>
        {| token := {| subject := s; clientId := c; scope := sc; expiry := number e |};
           userInfo := {| givenName := g; familyName := f; email := m |} |}
    | _ => noClaims
    end
}.

Definition alice (expiresAt : Z) : ApiClaims :=
  {| token := {| subject := "alice"; clientId := "spa"; scope := "openid"; expiry := expiresAt |};
     userInfo := {| givenName := "Alice";
                    familyName := "Archer";
                    email := "alice@example.com" |} |}.

End SampleProvider.

Module SpecProvider.

Import Claims.

(** A field of the claims in the text of the cache: every character of
    the field after a dot, then a bar that ends the field, so that no
    character of a field is taken for its end. *)
Fixpoint writeField (field : string) : string :=
  match field with
  | EmptyString => "|"
  | String c rest => String "." (String c (writeField rest))
  end.

(** The field a text starts with and the text after it. *)
Fixpoint readField (text : string) : string * string :=
  match text with
  | String "." (String c rest) =>
      let '(field, after) := readField rest in (String c field, after)
  | String _ after => (EmptyString, after)
  | EmptyString => (EmptyString, EmptyString)
  end.

Definition write (claims : ApiClaims) : string :=
  writeField (subject (token claims))
  +:+ (writeField (clientId (token claims))
  +:+ (writeField (scope (token claims))
  +:+ (writeField (givenName (userInfo claims))
  +:+ (writeField (familyName (userInfo claims))
  +:+ (writeField (email (userInfo claims))
  +:+ SampleProvider.digits (expiry (token claims))))))).

Definition read (text : string) : ApiClaims :=
  let '(s, text) := readField text in
  let '(c, text) := readField text in
  let '(sc, text) := readField text in
  let '(g, text) := readField text in
  let '(f, text) := readField text in
  let '(m, text) := readField text in
  {| token := {| subject := s; clientId := c; scope := sc;
                 expiry := SampleProvider.number text |};
     userInfo := {| givenName := g; familyName := f; email := m |} |}.

(** Modelled from the spec: the implementation of [ClaimsProvider] is not
    among the sources. The spec gives the collaborator [serialize], from
    claims to bytes, and [deserialize], from bytes to claims, which the
    cache uses to store and retrieve the claims without knowing their
    shape: [serialize] writes every field of the claims and [deserialize]
    reads the fields back. *)
#[export] Instance provider : ClaimsProvider := {
  serializeToCache := write;
  deserializeFromCache := read
}.

End SpecProvider.

(** ** More of JavaScript's strings

    Strings are sequences of bytes here: the functions below treat the
    ASCII characters as JavaScript does and leave every other byte alone. *)

Module JsText.

Definition code (c : ascii) : N := N_of_ascii c.

(** One character of [s.toLowerCase()]. *)
Definition lowerChar (c : ascii) : ascii :=
  if ((65 <=? code c) && (code c <=? 90))%N then ascii_of_N (code c + 32) else c.

(** [s.toLowerCase()] *)
Fixpoint toLowerCase (s : string) : string :=
  match s with
  | EmptyString => EmptyString
  | String c rest => String (lowerChar c) (toLowerCase rest)
  end.

(** [s.endsWith(suffix)]: some tail of [s] is [suffix]. *)
Fixpoint endsWith (s suffix : string) : bool :=
  String.eqb s suffix
  || match s with
     | EmptyString => false
     | String _ rest => endsWith rest suffix
     end.

(** [s] without its first [n] characters. *)
Fixpoint drop (n : nat) (s : string) : string :=
  match n, s with
  | O, _ => s
  | S n', String _ rest => drop n' rest
  | S _, EmptyString => EmptyString
  end.

(** [s.startsWith(pattern)] *)
Fixpoint startsWith (s pattern : string) {struct pattern} : bool :=
  match pattern, s with
  | EmptyString, _ => true
  | String p pattern', String c s' => Ascii.eqb c p && startsWith s' pattern'
  | String _ _, EmptyString => false
  end.

(** [s.replace(pattern, replacement)] for a pattern that is a string: the
    first occurrence is replaced, the rest of [s] is kept. (The replacement
    is taken literally; the sources only replace by the empty string.) *)
Fixpoint replace (pattern replacement s : string) : string :=
  if startsWith s pattern
  then replacement +:+ drop (String.length pattern) s
  else match s with
       | EmptyString => EmptyString
       | String c rest => String c (replace pattern replacement rest)
       end.

(** The white space [parseInt] skips that is one byte long: tab, line
    feed, vertical tab, form feed, carriage return and space. *)
Definition isWhiteSpace (c : ascii) : bool :=
  ((9 <=? code c) && (code c <=? 13) || (code c =? 32))%N.

(** A text holds the UTF-8 bytes of the JavaScript string. The other white
    space [parseInt] skips is two or three bytes long: the no-break space
    U+00A0 (C2 A0); U+1680 (E1 9A 80); U+2000 to U+200A, the line and
    paragraph separators U+2028 and U+2029 and U+202F (E2 80 ..); U+205F
    (E2 81 9F); U+3000 (E3 80 80); and the byte order mark U+FEFF
    (EF BB BF). *)
Definition isWhiteSpaceLead (c : ascii) : bool :=
  ((code c =? 194) || (code c =? 225) || (code c =? 226) || (code c =? 227)
   || (code c =? 239))%N.

Definition isWhiteSpace2 (c1 c2 : ascii) : bool :=
  ((code c1 =? 194) && (code c2 =? 160))%N.

Definition isWhiteSpace3 (c1 c2 c3 : ascii) : bool :=
  ((code c1 =? 225) && (code c2 =? 154) && (code c3 =? 128)
   || (code c1 =? 226) && (code c2 =? 128)
      && ((128 <=? code c3) && (code c3 <=? 138)
          || (code c3 =? 168) || (code c3 =? 169) || (code c3 =? 175))
   || (code c1 =? 226) && (code c2 =? 129) && (code c3 =? 159)
   || (code c1 =? 227) && (code c2 =? 128) && (code c3 =? 128)
   || (code c1 =? 239) && (code c2 =? 187) && (code c3 =? 191))%N.

Definition isDigit (c : ascii) : bool :=
  ((48 <=? code c) && (code c <=? 57))%N.

Definition digitValue (c : ascii) : Z := Z.of_N (code c) - 48.

(** The text without the white space it starts with. *)
Fixpoint trimStart (s : string) : string :=
  match s with
  | EmptyString => EmptyString
  | String c1 rest1 =>
      if isWhiteSpace c1 then trimStart rest1
      else if negb (isWhiteSpaceLead c1) then s
      else match rest1 with
           | String c2 rest2 =>
               if isWhiteSpace2 c1 c2 then trimStart rest2
               else match rest2 with
                    | String c3 rest3 =>
                        if isWhiteSpace3 c1 c2 c3 then trimStart rest3 else s
                    | EmptyString => s
                    end
           | EmptyString => s
           end
  end.

(** The values of the longest prefix of decimal digits. *)
Fixpoint leadingDigits (s : string) : list Z :=
  match s with
  | EmptyString => []
  | String c rest => if isDigit c then digitValue c :: leadingDigits rest else []
  end.

(** The number a sequence of digits denotes. *)
Definition digitsValue (ds : list Z) : Z :=
  fold_left (fun acc d => 10 * acc + d) ds 0.

(** The number of the leading digits, [NaN] ([None]) without a digit. *)
Definition parseDigits (s : string) : option Z :=
  match leadingDigits s with
  | [] => None
  | ds => Some (digitsValue ds)
  end.

(** [parseInt(s, 10)]: white space is skipped, a sign is read, then the
    longest run of digits; whatever follows is ignored. [None] is [NaN].
    The number is exact here; JavaScript rounds numbers from 2^53 on to the
    nearest double, keeping the sign. *)
Definition parseInt (s : string) : option Z :=
  match trimStart s with
  | String "-" rest => Z.opp <$> parseDigits rest
  | String "+" rest => parseDigits rest
  | trimmed => parseDigits trimmed
  end.

(** [String(n)] for an integer. *)
Definition ofInteger (n : Z) : string := SampleProvider.digits n.

End JsText.

(** ** BaseCompositionRoot: the API base path *)

Module BasePath.

(** [useApiBasePath]: the value kept in [_apiBasePath]. *)
Definition useApiBasePath (apiBasePath : string) : string :=
  let lowered := JsText.toLowerCase apiBasePath in
  if negb (JsText.endsWith lowered "/") then lowered +:+ "/" else lowered.

End BasePath.

(** ** WebApi: the company transactions route *)

Module CompanyRoutes.

Import ErrorUtils.

(** [new ClientError(400, 'invalid_company_id', ...)] *)
Definition invalidCompanyId : ClientError :=
  {| clientStatusCode := 400;
     errorCode := "invalid_company_id";
     clientMessage := "The company id must be a positive numeric integer" |}.

Section WithController.

Context {Claims : Type}.

(** [controller.getCompanyTransactions(id)] of a controller whose
    repository was created with the claims of the request. *)
Variable controller : Claims -> Z -> Js.settled exception WebApi.Body.

(** [getCompanyTransactions]: the promise of the async function, for the
    claims in [response.locals] and the text of [request.params.id]. The id
    given to the controller is the one JavaScript computes as long as it is
    below 2^53. *)
Definition getCompanyTransactions (claims : Claims) (idParam : string)
  : Js.settled exception WebApi.Response :=
  match JsText.parseInt idParam with
  | None => Js.Rejected (IsClientError invalidCompanyId)
  | Some id =>
      if id <=? 0 then Js.Rejected (IsClientError invalidCompanyId)
      else Js.then_ (controller claims id) (fun result =>
             Js.Resolved (WebApi.writeObjectResponse 200 result))
  end.

End WithController.

End CompanyRoutes.

(** ** HttpConfiguration: the files of the web application *)

Module HttpConfiguration.

Definition WEB_FILES_ROOT : string := "../../..".

Section WithPath.

(** [path.join] of the runtime, with its one argument. *)
Variable join : string -> string.

(** [__dirname] *)
Variable dirname : string.

(** [_getWebResource]: the file sent for [request.path]. *)
Definition _getWebResource (path : string) : string :=
  let resourcePath := JsText.replace "spa/" "" path in
  let resourcePath :=
    if String.eqb resourcePath "/" then "index.html" else resourcePath in
  join (dirname +:+ "/" +:+ WEB_FILES_ROOT +:+ "/spa/" +:+ resourcePath).

(** [_getWebRootResource] *)
Definition _getWebRootResource : string :=
  join (dirname +:+ "/" +:+ WEB_FILES_ROOT +:+ "/spa/index.html").

(** [_getFavicon] *)
Definition _getFavicon : string :=
  join (dirname +:+ "/" +:+ WEB_FILES_ROOT +:+ "/spa/favicon.ico").

End WithPath.

End HttpConfiguration.

(** ** ClaimsHandler: the header of the user info request *)

Module UserInfoRequest.

(** The [Authorization] header [_readCentralUserData] sends. *)
Definition authorizationHeader (accessToken : string) : string :=
  "Bearer " +:+ accessToken.

End UserInfoRequest.

(** ** Sequences of cache operations *)

Module CacheHistory.

Import Claims.

(** The clock reading of an operation. *)
Definition time (op : ClaimsCache.operation) : Z :=
  match op with
  | ClaimsCache.Get now _ => now
  | ClaimsCache.Add now _ _ => now
  end.

Section WithProvider.

Context {claimsProvider : ClaimsProvider}.

(** The cache after a sequence of operations. *)
Definition replay (c : NodeCache.cache) (ops : list ClaimsCache.operation) : NodeCache.cache :=
  fold_left ClaimsCache.apply ops c.

End WithProvider.

End CacheHistory.

(** ** Texts, histories and samples for the further properties *)

(** The text does not go on with a digit. *)
Definition noDigitAhead (s : string) : Prop :=
  match s with
  | EmptyString => True
  | String c _ => JsText.isDigit c = false
  end.

(** The text after white space and one sign. *)
Definition afterSign (s : string) : string :=
  match JsText.trimStart s with
  | String "-" rest => rest
  | String "+" rest => rest
  | trimmed => trimmed
  end.

(** Every entry expires, and no later than the maximum after [latest]. *)
Definition bounded (maximum latest : Z) (c : NodeCache.cache) : Prop :=
  NodeCache.stdTTL c = maximum
  /\ forall h w, NodeCache.data c !! h = Some w ->
                 0 < NodeCache.t w <= latest + maximum * 1000.

(** A controller that answers with the claims and the id it was given. *)
Definition sampleController (claims : string) (id : Z)
  : Js.settled ErrorUtils.exception WebApi.Body :=
  Js.Resolved {| WebApi.bodyCode := claims; WebApi.bodyMessage := JsText.ofInteger id |}.

(** A history of one digest: a put, a lookup and a second put. *)
Definition sampleHistory : list ClaimsCache.operation :=
  [ ClaimsCache.Add 0 "hash-of-token" (SampleProvider.alice 3600);
    ClaimsCache.Get 1000 "hash-of-token";
    ClaimsCache.Add 60000 "hash-of-token" (SampleProvider.alice 7200) ].

(** An introspection response whose [active] field is a text. *)
Definition activeAsText : ClaimsHandler.IntrospectionData :=
  {| ClaimsHandler.active := Js.VString "false";
     ClaimsHandler.exp := Js.VNumber 3600;
     ClaimsHandler.sub := Js.VString "alice";
     ClaimsHandler.cid := Js.VString "spa";
     ClaimsHandler.scope := Js.VString "openid" |}.

(** * Statements and sample values *)

(** ** The answers of the introspection endpoint *)

(** The endpoint answered 2xx with a body whose [active] is falsy. *)
Definition inactiveResponse (o : Http.outcome ClaimsHandler.IntrospectionData) : Prop :=
  exists statusCode data,
    o = Http.Response statusCode data
    /\ Http.is2xx statusCode = true
    /\ Js.truthy (ClaimsHandler.active data) = false.

(** No response arrived, or one outside 2xx. *)
Definition callFailed (o : Http.outcome ClaimsHandler.IntrospectionData) : Prop :=
  (exists cause, o = Http.TransportFailure cause)
  \/ (exists statusCode data,
        o = Http.Response statusCode data /\ Http.is2xx statusCode = false).

(** ** Statements the code does not meet as they stand *)

(** C2 as it stands: after a put of a token that has expired, every later
    lookup of its digest finds nothing. *)
Definition expired_put_guarantees_miss : Prop :=
  forall (claimsProvider : Claims.ClaimsProvider) (c : NodeCache.cache)
         (now later : Z) (accessTokenHash : string) (claims : Claims.ApiClaims),
    Claims.expiry (Claims.token claims) <= ClaimsCache.epochSeconds now ->
    now <= later ->
    fst (ClaimsCache.getClaimsForToken
           (ClaimsCache.addClaimsForToken c now accessTokenHash claims)
           later accessTokenHash) = None.

(** C8 as it stands: no operation of the cache changes the expiry instant
    an entry has. *)
Definition expiry_instant_never_changes : Prop :=
  forall (claimsProvider : Claims.ClaimsProvider) (c : NodeCache.cache)
         (op : ClaimsCache.operation) (h : string) (t t' : Z),
    ClaimsCache.expiryInstant c h = Some t ->
    ClaimsCache.expiryInstant (ClaimsCache.apply c op) h = Some t' ->
    t' = t.

(** C6 as it stands: every exception that is not a typed error is converted
    to the HTTP 500 error. *)
Definition untyped_exception_always_converted : Prop :=
  forall (codes : ErrorUtils.BaseErrorCodes) (e : ErrorUtils.exception),
    ErrorUtils.untyped e ->
    exists apiError,
      ErrorUtils.fromException e = ErrorUtils.Return (inl apiError)
      /\ ErrorUtils.statusCode apiError = 500.

(** C7 as it stands, and as the comment on the module variable says: in no
    run of the process does the discovery document arrive more than once. *)
Definition metadata_fetched_at_most_once : Prop :=
  forall (oauthConfig : ClaimsHandler.OAuthConfig) (events : list Process.event)
         (w : Process.world (handled := Taxonomy.error)),
    Process.run (errorHandler := ErrorHandler.fromSpec) oauthConfig Process.initial events
    = Some w ->
    (Process.metadataFetched events <= 1)%nat.

(** ** Invariant of the process *)

(** The phases a handler can only be in after the metadata was read. *)
Definition pastMetadata {handled : Type} (p : Process.phase (handled := handled)) : Prop :=
  match p with
  | Process.AwaitingMetadata => False
  | Process.AwaitingIntrospection => True
  | Process.AwaitingUserInfo _ => True
  | Process.Finished (Js.Resolved _) => True
  | Process.Finished (Js.Rejected _) => False
  end.

(** While the module variable is empty, no handler is past the metadata. *)
Definition consistent {handled : Type} (w : Process.world (handled := handled)) : Prop :=
  Process.metadata w = None ->
  forall id h, Process.handlers w !! id = Some h -> ~ pastMetadata (Process.at_ h).

(** ** Registration *)

(** The root after registration, for a configuration. *)
Definition registered (oauth : BaseCompositionRoot.OAuthConfiguration)
    (unsecured : list string) (proxyUrl : string) : BaseCompositionRoot.root :=
  BaseCompositionRoot.register (BaseCompositionRoot.configured oauth unsecured proxyUrl).

(** The JWKS client created for the JWT validator. *)
Definition jwksClientOf (oauth : BaseCompositionRoot.OAuthConfiguration) (proxyUrl : string)
  : BaseCompositionRoot.constant :=
  BaseCompositionRoot.TheJwksClient
    (BaseCompositionRoot.jwksEndpoint oauth)
    (if Js.truthy_string proxyUrl then Some proxyUrl else None).

(** ** The body of a server error *)

(** The body of the 500 response: the same for every upstream failure. *)
Definition serverErrorBody {codes : ErrorUtils.BaseErrorCodes} : WebApi.Body :=
  {| WebApi.bodyCode := ErrorUtils.serverError;
     WebApi.bodyMessage := "Problem encountered in the API" |}.

(** ** Sample values *)

Definition sampleMetadata : ClaimsHandler.Metadata :=
  {| ClaimsHandler.introspection_endpoint := "https://login.example.com/oauth2/introspect";
     ClaimsHandler.userinfo_endpoint := "https://login.example.com/oauth2/userinfo" |}.

Definition sampleConfig : ClaimsHandler.OAuthConfig :=
  {| ClaimsHandler.authority := "https://login.example.com";
     ClaimsHandler.client_id := "api";
     ClaimsHandler.client_secret := "secret" |}.

Definition inactiveBody : ClaimsHandler.IntrospectionData :=
  {| ClaimsHandler.active := Js.VBool false;
     ClaimsHandler.exp := Js.VUndefined;
     ClaimsHandler.sub := Js.VUndefined;
     ClaimsHandler.cid := Js.VUndefined;
     ClaimsHandler.scope := Js.VUndefined |}.

Definition activeBody : ClaimsHandler.IntrospectionData :=
  {| ClaimsHandler.active := Js.VBool true;
     ClaimsHandler.exp := Js.VNumber 3600;
     ClaimsHandler.sub := Js.VString "alice";
     ClaimsHandler.cid := Js.VString "spa";
     ClaimsHandler.scope := Js.VString "openid" |}.

Definition aliceInfo : ClaimsHandler.UserInfo :=
  {| ClaimsHandler.ui_given_name := Js.VString "Alice";
     ClaimsHandler.ui_family_name := Js.VString "Archer";
     ClaimsHandler.ui_email := Js.VString "alice@example.com" |}.

Definition sampleCodes : ErrorUtils.BaseErrorCodes :=
  {| ErrorUtils.serverError := "server_error";
     ErrorUtils.claimsFailure := "claims_failure" |}.

(** An object created with a [null] prototype and no property. *)
Definition bareObject : ErrorUtils.exception :=
  ErrorUtils.IsOther
    {| ErrorUtils.thrown_stack := None;
       ErrorUtils.thrown_message := None;
       ErrorUtils.thrown_toString := None |}.

Definition thrownString : ErrorUtils.exception :=
  ErrorUtils.IsOther
    {| ErrorUtils.thrown_stack := None;
       ErrorUtils.thrown_message := None;
       ErrorUtils.thrown_toString := Some "socket hang up" |}.

Definition sampleValidate (accessToken : string) : Js.settled Taxonomy.error string :=
  if bool_decide (accessToken = "good-token") then Js.Resolved "alice"
  else if bool_decide (accessToken = "expired-token") then Js.Rejected Taxonomy.TokenInvalid
  else Js.Rejected
         (Taxonomy.UpstreamUnavailable "introspection"
            "https://login.example.com/oauth2/introspect").

(** A cache of five minutes; a token that expires an hour after second 0. *)
Definition fiveMinutes : NodeCache.cache := ClaimsCache.create 5.

(** A cache of thirty minutes in which the token of alice, which expires at
    second 10, was stored 999 milliseconds after second 0. *)
Definition cacheWithAlice : NodeCache.cache :=
  ClaimsCache.addClaimsForToken (claimsProvider := SampleProvider.provider)
    (ClaimsCache.create 30) 999 "hash-of-token"
    (SampleProvider.alice 10).

(** The entry stored at second 0 expires at 300 s; a second put of the same
    token one minute later moves the expiry to 360 s. *)
Definition cacheAfterFirstPut : NodeCache.cache :=
  ClaimsCache.addClaimsForToken (claimsProvider := SampleProvider.provider)
    fiveMinutes 0 "hash-of-token" (SampleProvider.alice 3600).

Definition secondPut : ClaimsCache.operation :=
  ClaimsCache.Add 60000 "hash-of-token" (SampleProvider.alice 3600).

(** A digest and an assembler to run the authorizer with. *)
Definition sampleDigest (accessToken : string) : string := "sha256:" +:+ accessToken.

Definition sampleAssemble (baseline : Claims.TokenClaims) : Claims.ApiClaims :=
  {| Claims.token := baseline;
     Claims.userInfo := Claims.userInfo (SampleProvider.alice 0) |}.

Definition freshAuthorizer : ClaimsCachingAuthorizer.state :=
  {| ClaimsCachingAuthorizer.cache := ClaimsCache.create 30;
     ClaimsCachingAuthorizer.assemblerCalls := 0 |}.

Definition afterFirstRequest : Claims.ApiClaims * ClaimsCachingAuthorizer.state :=
  ClaimsCachingAuthorizer.resolveClaims (claimsProvider := SampleProvider.provider)
    sampleDigest sampleAssemble freshAuthorizer 0 "abc123"
    (Claims.token (SampleProvider.alice 3600)).

Definition afterSecondRequest : Claims.ApiClaims * ClaimsCachingAuthorizer.state :=
  ClaimsCachingAuthorizer.resolveClaims (claimsProvider := SampleProvider.provider)
    sampleDigest sampleAssemble (snd afterFirstRequest) 60000 "abc123"
    (Claims.token (SampleProvider.alice 3600)).

(** Two requests arrive before the first discovery response does: each
    handler finds the module variable empty and sends its own request. *)
Definition overlappingRequests : list Process.event :=
  [ Process.LookupClaims 0 "token-a";
    Process.LookupClaims 1 "token-b";
    Process.MetadataArrives 0 (Http.Response 200 sampleMetadata);
    Process.MetadataArrives 1 (Http.Response 200 sampleMetadata) ].

(** One request, served before any other starts. *)
Definition firstRequest : list Process.event :=
  [ Process.LookupClaims 0 "token-a";
    Process.MetadataArrives 0 (Http.Response 200 sampleMetadata);
    Process.IntrospectionArrives 0 (Http.Response 200 activeBody);
    Process.UserInfoArrives 0 (Http.Response 200 aliceInfo) ].

Definition sampleRun (events : list Process.event)
  : option (Process.world (handled := Taxonomy.error)) :=
  Process.run (errorHandler := ErrorHandler.fromSpec) sampleConfig Process.initial events.

Definition afterFirstFetch : Process.world (handled := Taxonomy.error) :=
  default Process.initial (sampleRun firstRequest).

(** * Properties *)

(** ** Splitting a header *)

Section SplitFacts.

Variable sep : ascii.

Lemma split_nonempty (s : string) : Js.split sep s <> [].
Proof.
  destruct s as [|c rest]; simpl; [discriminate|].
  destruct (Ascii.eqb c sep); [discriminate|].
  destruct (Js.split sep rest); discriminate.
Qed.

(** No piece of a split contains the separator. *)
Lemma split_pieces_clean (s : string) :
  Forall (fun piece => Js.includes sep piece = false) (Js.split sep s).
Proof.
  induction s as [|c rest IH]; simpl.
  - repeat constructor.
  - destruct (Ascii.eqb c sep) eqn:Ec.
    + constructor; [reflexivity | exact IH].
    + destruct (Js.split sep rest) as [|piece pieces].
      * repeat constructor. simpl. rewrite Ec. reflexivity.
      * inversion IH; subst. constructor; [|assumption].
        simpl. rewrite Ec. assumption.
Qed.

(** Joining the pieces gives the string back. *)
Lemma join_split (s : string) : Js.join sep (Js.split sep s) = s.
Proof.
  induction s as [|c rest IH]; simpl; [reflexivity|].
  destruct (Ascii.eqb c sep) eqn:Ec.
  - apply Ascii.eqb_eq in Ec. subst c.
    pose proof (split_nonempty rest) as Hne.
    destruct (Js.split sep rest) as [|piece pieces]; [congruence|].
    simpl in *. rewrite IH. reflexivity.
  - destruct (Js.split sep rest) as [|piece pieces] eqn:Es.
    + exfalso. eapply split_nonempty; eassumption.
    + destruct pieces as [|piece' pieces']; simpl in *; rewrite <- IH; reflexivity.
Qed.

(** A string free of the separator is its own single piece. *)
Lemma split_clean (s : string) :
  Js.includes sep s = false -> Js.split sep s = [s].
Proof.
  induction s as [|c rest IH]; simpl; [reflexivity|].
  intros H. apply orb_false_iff in H as [Hc Hrest].
  rewrite Hc, (IH Hrest). reflexivity.
Qed.

(** Splitting distributes over a separator in the middle. *)
Lemma split_app_sep (a b : string) :
  Js.includes sep a = false ->
  Js.split sep (a +:+ String sep b) = a :: Js.split sep b.
Proof.
  induction a as [|c rest IH]; simpl.
  - intros _. rewrite Ascii.eqb_refl. reflexivity.
  - intros H. apply orb_false_iff in H as [Hc Hrest].
    rewrite Hc, (IH Hrest). reflexivity.
Qed.

End SplitFacts.

(** A header has the two pieces [Bearer] and a token exactly when it is
    the word [Bearer], one space, and a token free of spaces. *)
Lemma split_bearer (header token : string) :
  Js.split " " header = ["Bearer"; token] <->
  header = "Bearer " +:+ token /\ Js.includes " " token = false.
Proof.
  split.
  - intros Hs. split.
    + rewrite <- (join_split " " header), Hs. reflexivity.
    + pose proof (split_pieces_clean " " header) as Hc.
      rewrite Hs in Hc. inversion Hc as [|? ? _ Hrest]; subst.
      inversion Hrest; subst. assumption.
  - intros [-> Hclean].
    change ("Bearer " +:+ token) with ("Bearer" +:+ String " " token).
    rewrite split_app_sep by reflexivity.
    rewrite split_clean by assumption. reflexivity.
Qed.

(** ** C4: the bearer token of a request *)

Lemma readAccessToken_some (authorizationHeader : option string) (token : string) :
  WebApi._readAccessToken authorizationHeader = Some token <->
  exists header, authorizationHeader = Some header
                 /\ Js.split " " header = ["Bearer"; token].
Proof.
  unfold WebApi._readAccessToken. split.
  - destruct authorizationHeader as [header|]; [|discriminate].
    destruct (Js.truthy_string header); [|discriminate].
    destruct (Js.split " " header) as [|p0 [|p1 [|p2 rest]]] eqn:Es;
      simpl; try discriminate.
    case_bool_decide as Hb; simpl; [|discriminate].
    intros [= ->]. exists header. split; [reflexivity|]. congruence.
  - intros (header & -> & Hs).
    destruct header as [|c rest]; [discriminate|].
    simpl Js.truthy_string. cbv iota. rewrite Hs. reflexivity.
Qed.

(** C4. A token is read from a request exactly when its authorization
    header splits on spaces into two parts of which the first is the
    literal [Bearer]; the token is then the second part. Every other header,
    and an absent one, gives no token. *)
Theorem readAccessToken_bearer_only (authorizationHeader : option string) :
  (forall token,
      WebApi._readAccessToken authorizationHeader = Some token <->
      exists header, authorizationHeader = Some header
                     /\ Js.split " " header = ["Bearer"; token])
  /\ (WebApi._readAccessToken authorizationHeader = None <->
      ~ exists header token, authorizationHeader = Some header
                             /\ Js.split " " header = ["Bearer"; token]).
Proof.
  split; [intros token; apply readAccessToken_some|].
  split.
  - intros Hnone (header & token & Hh & Hs).
    assert (WebApi._readAccessToken authorizationHeader = Some token) as Hsome
      by (apply readAccessToken_some; eauto).
    congruence.
  - intros Hno.
    destruct (WebApi._readAccessToken authorizationHeader) as [token|] eqn:Er; [|reflexivity].
    exfalso. apply Hno.
    apply readAccessToken_some in Er as (header & Hh & Hs). eauto.
Qed.

Example readAccessToken_bearer :
  WebApi._readAccessToken (Some "Bearer abc123") = Some "abc123".
Proof. reflexivity. Qed.

Example readAccessToken_absent : WebApi._readAccessToken None = None.
Proof. reflexivity. Qed.

Example readAccessToken_lower_case :
  WebApi._readAccessToken (Some "bearer abc123") = None.
Proof. reflexivity. Qed.

Example readAccessToken_other_scheme :
  WebApi._readAccessToken (Some "Basic abc123") = None.
Proof. reflexivity. Qed.

Example readAccessToken_three_parts :
  WebApi._readAccessToken (Some "Bearer abc 123") = None.
Proof. reflexivity. Qed.

Example readAccessToken_two_spaces :
  WebApi._readAccessToken (Some "Bearer  abc123") = None.
Proof. reflexivity. Qed.

Example readAccessToken_one_part :
  WebApi._readAccessToken (Some "Bearer") = None.
Proof. reflexivity. Qed.

(** The second part may be empty: the token read is then the empty string,
    which the authorization state machine takes as no token. *)
Example readAccessToken_empty_token :
  WebApi._readAccessToken (Some "Bearer ") = Some "".
Proof. reflexivity. Qed.

(** ** C1: the failures of the introspection call *)

Section ReadTokenData.

Import Http ClaimsHandler.

Context {handled : Type} {errorHandler : ErrorHandler.Ops handled}.

(** Whatever the error handler is, an inactive token reaches the caller
    through [fromIntrospectionError]: the rejection made in the [then]
    callback is caught by the [catch] chained after it. *)
Lemma readTokenData_inactive_passes_catch (m : Metadata) (statusCode : Z)
      (data : IntrospectionData) :
  is2xx statusCode = true ->
  Js.truthy (active data) = false ->
  _readTokenData (Some m) (Response statusCode data)
  = Js.Rejected (ErrorHandler.fromIntrospectionError
                   ErrorHandler.getTokenExpiredError (introspection_endpoint m)).
Proof.
  intros H2xx Hinactive. simpl.
  unfold _readTokenData_settle, RequestPromise.
  rewrite H2xx. simpl. rewrite Hinactive. reflexivity.
Qed.

Lemma readTokenData_transport_failure (m : Metadata) (cause : string) :
  _readTokenData (Some m) (TransportFailure cause)
  = Js.Rejected (ErrorHandler.fromIntrospectionError
                   (RequestError cause) (introspection_endpoint m)).
Proof. reflexivity. Qed.

Lemma readTokenData_bad_status (m : Metadata) (statusCode : Z) (data : IntrospectionData) :
  is2xx statusCode = false ->
  _readTokenData (Some m) (Response statusCode data)
  = Js.Rejected (ErrorHandler.fromIntrospectionError
                   (StatusCodeError statusCode) (introspection_endpoint m)).
Proof.
  intros H. simpl. unfold _readTokenData_settle, RequestPromise. rewrite H. reflexivity.
Qed.

Lemma readTokenData_active (m : Metadata) (statusCode : Z) (data : IntrospectionData) :
  is2xx statusCode = true ->
  Js.truthy (active data) = true ->
  exists tokenData,
    _readTokenData (Some m) (Response statusCode data) = Js.Resolved tokenData
    /\ td_exp tokenData = exp data
    /\ userId (td_claims tokenData) = sub data.
Proof.
  intros H2xx Hactive. simpl. unfold _readTokenData_settle, RequestPromise.
  rewrite H2xx. simpl. rewrite Hactive. simpl. eauto.
Qed.

End ReadTokenData.

(** C1. With the error handler of the specification, a 2xx introspection
    response whose body has [active] false rejects the token with
    [TokenInvalid]; a transport failure and a response outside 2xx reject
    it with [UpstreamUnavailable] for the introspection endpoint. Each of
    the two errors occurs for its own kind of answer only. *)
Theorem introspection_inactive_is_not_upstream
    (m : ClaimsHandler.Metadata) (o : Http.outcome ClaimsHandler.IntrospectionData) :
  let result := ClaimsHandler._readTokenData (errorHandler := ErrorHandler.fromSpec) (Some m) o in
  let endpoint := ClaimsHandler.introspection_endpoint m in
  (forall statusCode data,
      o = Http.Response statusCode data ->
      Http.is2xx statusCode = true ->
      ClaimsHandler.active data = Js.VBool false ->
      result = Js.Rejected (Http.Handled Taxonomy.TokenInvalid))
  /\ (callFailed o ->
      result = Js.Rejected (Http.Handled (Taxonomy.UpstreamUnavailable "introspection" endpoint)))
  /\ (result = Js.Rejected (Http.Handled Taxonomy.TokenInvalid) <-> inactiveResponse o)
  /\ (forall area url,
        result = Js.Rejected (Http.Handled (Taxonomy.UpstreamUnavailable area url)) ->
        callFailed o).
Proof.
  intros result endpoint. subst result endpoint.
  repeat split.
  - intros statusCode data -> H2xx Hactive.
    rewrite readTokenData_inactive_passes_catch; [reflexivity|assumption|].
    rewrite Hactive. reflexivity.
  - intros [[cause ->]|(statusCode & data & -> & Hbad)].
    + reflexivity.
    + rewrite readTokenData_bad_status by assumption. reflexivity.
  - intros Hr. destruct o as [cause|statusCode data]; [discriminate Hr|].
    destruct (Http.is2xx statusCode) eqn:H2xx.
    + destruct (Js.truthy (ClaimsHandler.active data)) eqn:Hact.
      * destruct (readTokenData_active (errorHandler := ErrorHandler.fromSpec)
                    m statusCode data H2xx Hact) as (td & Heq & _).
        rewrite Heq in Hr. discriminate Hr.
      * exists statusCode, data. auto.
    + rewrite readTokenData_bad_status in Hr by assumption. discriminate Hr.
  - intros (statusCode & data & -> & H2xx & Hinactive).
    rewrite readTokenData_inactive_passes_catch by assumption. reflexivity.
  - intros area url Hr. destruct o as [cause|statusCode data].
    + left. eauto.
    + destruct (Http.is2xx statusCode) eqn:H2xx.
      * destruct (Js.truthy (ClaimsHandler.active data)) eqn:Hact.
        -- destruct (readTokenData_active (errorHandler := ErrorHandler.fromSpec)
                       m statusCode data H2xx Hact) as (td & Heq & _).
           rewrite Heq in Hr. discriminate Hr.
        -- rewrite readTokenData_inactive_passes_catch in Hr by assumption.
           discriminate Hr.
      * right. eauto.
Qed.

Lemma introspection_inactive_is_not_upstream_witness :
  ClaimsHandler._readTokenData (errorHandler := ErrorHandler.fromSpec)
    (Some sampleMetadata) (Http.Response 200 inactiveBody)
  = Js.Rejected (Http.Handled Taxonomy.TokenInvalid)
  /\ ClaimsHandler._readTokenData (errorHandler := ErrorHandler.fromSpec)
       (Some sampleMetadata) (Http.TransportFailure "ETIMEDOUT")
     = Js.Rejected (Http.Handled
                      (Taxonomy.UpstreamUnavailable "introspection"
                         "https://login.example.com/oauth2/introspect")).
Proof.
  split.
  - apply (proj1 (introspection_inactive_is_not_upstream sampleMetadata
                    (Http.Response 200 inactiveBody)) 200 inactiveBody);
      reflexivity.
  - apply (proj1 (proj2 (introspection_inactive_is_not_upstream sampleMetadata
                           (Http.TransportFailure "ETIMEDOUT")))).
    left. exists "ETIMEDOUT". reflexivity.
Defined.

(** ** The cache library *)

Section NodeCacheFacts.

Import NodeCache.

Lemma set_lookup_same (c : cache) (now : Z) (key value : string) (ttl : option Z) :
  data (set c now key value ttl) !! key = Some (_wrap c now value ttl).
Proof. simpl. apply lookup_insert_eq. Qed.

Lemma set_lookup_other (c : cache) (now : Z) (key key' value : string) (ttl : option Z) :
  key <> key' -> data (set c now key value ttl) !! key' = data c !! key'.
Proof. intros Hne. simpl. apply lookup_insert_ne. assumption. Qed.

(** A lookup returns a value only for an entry that is there and alive. *)
Lemma get_some (c : cache) (now : Z) (key value : string) :
  fst (get c now key) = Some value <->
  exists w, data c !! key = Some w /\ _check now w = true /\ v w = value.
Proof.
  unfold get. split.
  - destruct (data c !! key) as [w|]; [|discriminate].
    destruct (_check now w) eqn:Hc; [|discriminate].
    simpl. intros [= <-]. eauto.
  - intros (w & -> & -> & <-). reflexivity.
Qed.


(** After a lookup, every entry still there is the entry as it was. *)
Lemma get_keeps_entries (c : cache) (now : Z) (key key' : string) (w : wrapped) :
  data (snd (get c now key)) !! key' = Some w -> data c !! key' = Some w.
Proof.
  unfold get. destruct (data c !! key) as [w0|] eqn:Hk; [|auto].
  destruct (_check now w0); [auto|]. simpl.
  intros Hd. apply lookup_delete_Some in Hd as [_ Hd]. exact Hd.
Qed.

Lemma get_keeps_stdTTL (c : cache) (now : Z) (key : string) :
  stdTTL (snd (get c now key)) = stdTTL c.
Proof.
  unfold get. destruct (data c !! key) as [w|]; [|reflexivity].
  destruct (_check now w); reflexivity.
Qed.

End NodeCacheFacts.

(** ** C2, C3, C8: what the cache stores and for how long *)

Section ClaimsCacheFacts.

Import Claims NodeCache ClaimsCache.

Context {claimsProvider : ClaimsProvider}.

Lemma secondsToCache_none (c : cache) (now : Z) (claims : ApiClaims) :
  secondsToCache c now claims = None <-> expiry (token claims) <= epochSeconds now.
Proof.
  unfold secondsToCache.
  destruct (Z.ltb_spec 0 (expiry (token claims) - epochSeconds now)) as [Hpos|Hnon].
  - destruct (stdTTL c <? _); split; try discriminate; lia.
  - split; [lia|reflexivity].
Qed.

Lemma secondsToCache_some (c : cache) (now : Z) (claims : ApiClaims) (ttl : Z) :
  secondsToCache c now claims = Some ttl <->
  epochSeconds now < expiry (token claims)
  /\ ttl = Z.min (expiry (token claims) - epochSeconds now) (stdTTL c).
Proof.
  unfold secondsToCache.
  destruct (Z.ltb_spec 0 (expiry (token claims) - epochSeconds now)) as [Hpos|Hnon].
  - destruct (Z.ltb_spec (stdTTL c) (expiry (token claims) - epochSeconds now))
      as [Hcap|Hfit]; split.
    + intros [= <-]. lia.
    + intros [_ ->]. f_equal. lia.
    + intros [= <-]. lia.
    + intros [_ ->]. f_equal. lia.
  - split; [discriminate|lia].
Qed.

(** The claims a lookup finds are those of a live entry with a text that
    is not empty. *)
Lemma getClaimsForToken_some (c : cache) (now : Z) (h : string) (claims : ApiClaims) :
  fst (getClaimsForToken c now h) = Some claims <->
  exists w, data c !! h = Some w /\ _check now w = true
            /\ Js.truthy_string (v w) = true
            /\ deserializeFromCache (v w) = claims.
Proof.
  unfold getClaimsForToken, get. split.
  - destruct (data c !! h) as [w|]; [|discriminate].
    destruct (_check now w) eqn:Hc; [|discriminate].
    destruct (Js.truthy_string (v w)) eqn:Ht; [|discriminate].
    simpl. intros [= <-]. exists w. auto.
  - intros (w & -> & -> & Ht & <-). rewrite Ht. reflexivity.
Qed.


Lemma getClaimsForToken_cache (c : cache) (now : Z) (h : string) :
  snd (getClaimsForToken c now h) = snd (get c now h).
Proof.
  unfold getClaimsForToken. destruct (get c now h) as [[text|] c']; simpl;
    [destruct (Js.truthy_string text)|]; reflexivity.
Qed.

Lemma getClaimsForToken_absent (c : cache) (now : Z) (h : string) :
  data c !! h = None -> fst (getClaimsForToken c now h) = None.
Proof. intros Hn. unfold getClaimsForToken, get. rewrite Hn. reflexivity. Qed.

End ClaimsCacheFacts.

Section ClaimsCacheClaims.

Import Claims NodeCache ClaimsCache.

Context {claimsProvider : ClaimsProvider}.

(** C2, as amended. A put for a token whose expiry is not after the
    current time stores nothing and leaves the cache as it was: a lookup
    after it returns what it would have returned without the put, and so
    returns nothing when the cache held no entry for the digest. *)
Theorem expired_token_put_is_noop
    (c : cache) (now : Z) (accessTokenHash : string) (claims : ApiClaims) :
  expiry (token claims) <= epochSeconds now ->
  addClaimsForToken c now accessTokenHash claims = c
  /\ (forall later h,
        getClaimsForToken (addClaimsForToken c now accessTokenHash claims) later h
        = getClaimsForToken c later h)
  /\ (data c !! accessTokenHash = None ->
      forall later,
        fst (getClaimsForToken (addClaimsForToken c now accessTokenHash claims)
               later accessTokenHash) = None).
Proof.
  intros Hexpired.
  assert (addClaimsForToken c now accessTokenHash claims = c) as Hnoop.
  { unfold addClaimsForToken.
    apply (secondsToCache_none c) in Hexpired. rewrite Hexpired. reflexivity. }
  rewrite Hnoop. repeat split; auto.
  intros Habsent later. apply getClaimsForToken_absent. assumption.
Qed.

(** C3. When a put stores an entry, the time to live it passes to the
    cache is the smaller of the seconds left to the token and the
    configured maximum, so it is never above that maximum; with a maximum
    other than 0 the entry expires that many seconds after the put. *)
Theorem stored_ttl_is_min_of_expiry_and_maximum
    (c : cache) (now : Z) (accessTokenHash : string) (claims : ApiClaims) (ttl : Z) :
  secondsToCache c now claims = Some ttl ->
  ttl = Z.min (expiry (token claims) - epochSeconds now) (stdTTL c)
  /\ ttl <= stdTTL c
  /\ addClaimsForToken c now accessTokenHash claims
     = set c now accessTokenHash (serializeToCache claims) (Some ttl)
  /\ (stdTTL c <> 0 ->
      expiryInstant (addClaimsForToken c now accessTokenHash claims) accessTokenHash
      = Some (now + ttl * 1000)).
Proof.
  intros Hstored.
  pose proof (proj1 (secondsToCache_some c now claims ttl) Hstored) as [Hvalid Hmin].
  assert (addClaimsForToken c now accessTokenHash claims
          = set c now accessTokenHash (serializeToCache claims) (Some ttl)) as Hset.
  { unfold addClaimsForToken. rewrite Hstored. reflexivity. }
  repeat split.
  - exact Hmin.
  - lia.
  - exact Hset.
  - intros Hmax. rewrite Hset. unfold expiryInstant.
    rewrite set_lookup_same. simpl.
    destruct (Z.eqb_spec ttl 0) as [Hzero|_]; [lia|reflexivity].
Qed.

(** Every put stores with the time to live of C3 or does not store. *)
Lemma addClaimsForToken_cases
    (c : cache) (now : Z) (accessTokenHash : string) (claims : ApiClaims) :
  (expiry (token claims) <= epochSeconds now
   /\ addClaimsForToken c now accessTokenHash claims = c)
  \/ (epochSeconds now < expiry (token claims)
      /\ addClaimsForToken c now accessTokenHash claims
         = set c now accessTokenHash (serializeToCache claims)
             (Some (Z.min (expiry (token claims) - epochSeconds now) (stdTTL c)))).
Proof.
  destruct (secondsToCache c now claims) as [ttl|] eqn:Hs.
  - right. pose proof (proj1 (secondsToCache_some c now claims ttl) Hs) as [Hvalid ->].
    split; [assumption|]. unfold addClaimsForToken. rewrite Hs. reflexivity.
  - left. split; [apply (secondsToCache_none c); assumption|].
    unfold addClaimsForToken. rewrite Hs. reflexivity.
Qed.

(** C8, as amended. No operation of the cache other than a put that
    stores under the same digest gives an entry an expiry instant it did
    not have: after a lookup, a put under another digest or a put of an
    expired token, an entry that is there has the instant fixed when it
    was stored. A put that stores under the digest replaces the entry and
    fixes the instant anew from the time of that put. *)
Theorem expiry_instant_changes_only_by_storing_put
    (c : cache) (op : operation) (h : string) :
  (~ storesUnder c op h ->
   forall t', expiryInstant (apply c op) h = Some t' -> expiryInstant c h = Some t')
  /\ (forall now claims ttl,
        op = Add now h claims ->
        secondsToCache c now claims = Some ttl ->
        expiryInstant (apply c op) h = Some (livetime c now (Some ttl))).
Proof.
  split.
  - intros Hother t'. unfold expiryInstant.
    destruct op as [now h'|now h' claims]; simpl.
    + rewrite getClaimsForToken_cache.
      destruct (data (snd (get c now h')) !! h) as [w|] eqn:Hw; [|discriminate].
      intros [= <-]. rewrite (get_keeps_entries c now h' h w Hw). reflexivity.
    + unfold addClaimsForToken.
      destruct (secondsToCache c now claims) as [ttl|] eqn:Hs; [|auto].
      destruct (decide (h' = h)) as [->|Hne].
      * exfalso. apply Hother. simpl. rewrite Hs. eauto.
      * rewrite set_lookup_other by assumption. auto.
  - intros now claims ttl -> Hs. unfold expiryInstant. simpl.
    unfold addClaimsForToken. rewrite Hs, set_lookup_same. reflexivity.
Qed.

End ClaimsCacheClaims.

(** The entry lives until 10999 ms. A put of the same token at 10000 ms,
    when the token has expired, stores nothing, and a lookup half a second
    later still finds the claims. *)
Lemma expired_put_does_not_guarantee_miss : ~ expired_put_guarantees_miss.
Proof.
  intros Hclaim.
  specialize (Hclaim SampleProvider.provider cacheWithAlice 10000 10500
                "hash-of-token" (SampleProvider.alice 10)).
  assert (Claims.expiry (Claims.token (SampleProvider.alice 10))
          <= ClaimsCache.epochSeconds 10000) as Hexpired by (vm_compute; discriminate).
  assert (10000 <= 10500) as Hlater by lia.
  specialize (Hclaim Hexpired Hlater).
  vm_compute in Hclaim. discriminate Hclaim.
Qed.

Example expired_put_then_hit :
  ClaimsCache.expiryInstant cacheWithAlice "hash-of-token" = Some 10999
  /\ ClaimsCache.addClaimsForToken (claimsProvider := SampleProvider.provider)
       cacheWithAlice 10000 "hash-of-token" (SampleProvider.alice 10)
     = cacheWithAlice
  /\ fst (ClaimsCache.getClaimsForToken (claimsProvider := SampleProvider.provider)
            cacheWithAlice 10500 "hash-of-token")
     = Some (SampleProvider.alice 10)
  /\ fst (ClaimsCache.getClaimsForToken (claimsProvider := SampleProvider.provider)
            cacheWithAlice 11000 "hash-of-token")
     = None.
Proof. repeat split; vm_compute; reflexivity. Qed.

Lemma expired_token_put_is_noop_witness :
  ClaimsCache.addClaimsForToken (claimsProvider := SampleProvider.provider)
    (ClaimsCache.create 30) 11000 "hash-of-token" (SampleProvider.alice 10)
  = ClaimsCache.create 30
  /\ fst (ClaimsCache.getClaimsForToken (claimsProvider := SampleProvider.provider)
            (ClaimsCache.addClaimsForToken (claimsProvider := SampleProvider.provider)
               (ClaimsCache.create 30) 11000 "hash-of-token" (SampleProvider.alice 10))
            11000 "hash-of-token")
     = None.
Proof.
  assert (Claims.expiry (Claims.token (SampleProvider.alice 10))
          <= ClaimsCache.epochSeconds 11000) as Hexpired by (vm_compute; discriminate).
  destruct (expired_token_put_is_noop (claimsProvider := SampleProvider.provider)
              (ClaimsCache.create 30) 11000 "hash-of-token" (SampleProvider.alice 10)
              Hexpired) as (Hnoop & _ & Hmiss).
  split; [exact Hnoop|].
  apply Hmiss. reflexivity.
Defined.

Lemma stored_ttl_is_min_of_expiry_and_maximum_witness :
  ClaimsCache.secondsToCache fiveMinutes 0 (SampleProvider.alice 3600) = Some 300
  /\ 300 <= NodeCache.stdTTL fiveMinutes
  /\ ClaimsCache.expiryInstant
       (ClaimsCache.addClaimsForToken (claimsProvider := SampleProvider.provider)
          fiveMinutes 0 "hash-of-token" (SampleProvider.alice 3600))
       "hash-of-token"
     = Some (0 + 300 * 1000).
Proof.
  assert (ClaimsCache.secondsToCache fiveMinutes 0 (SampleProvider.alice 3600) = Some 300)
    as Hstored by reflexivity.
  destruct (stored_ttl_is_min_of_expiry_and_maximum (claimsProvider := SampleProvider.provider)
              fiveMinutes 0 "hash-of-token" (SampleProvider.alice 3600) 300 Hstored)
    as (_ & Hle & _ & Hinstant).
  split; [exact Hstored|]. split; [exact Hle|].
  apply Hinstant. vm_compute. discriminate.
Defined.

Lemma second_put_moves_expiry_instant : ~ expiry_instant_never_changes.
Proof.
  intros Hclaim.
  specialize (Hclaim SampleProvider.provider cacheAfterFirstPut secondPut
                "hash-of-token" 300000 360000).
  assert (360000 = 300000) as Habsurd by (apply Hclaim; vm_compute; reflexivity).
  discriminate Habsurd.
Qed.

Example second_put_instants :
  ClaimsCache.expiryInstant cacheAfterFirstPut "hash-of-token" = Some 300000
  /\ ClaimsCache.expiryInstant
       (ClaimsCache.apply (claimsProvider := SampleProvider.provider)
          cacheAfterFirstPut secondPut) "hash-of-token"
     = Some 360000.
Proof. split; vm_compute; reflexivity. Qed.

Lemma expiry_instant_changes_only_by_storing_put_witness :
  (forall t',
      ClaimsCache.expiryInstant
        (ClaimsCache.apply (claimsProvider := SampleProvider.provider)
           cacheAfterFirstPut (ClaimsCache.Get 60000 "hash-of-token")) "hash-of-token"
      = Some t' ->
      ClaimsCache.expiryInstant cacheAfterFirstPut "hash-of-token" = Some t')
  /\ ClaimsCache.expiryInstant
       (ClaimsCache.apply (claimsProvider := SampleProvider.provider)
          cacheAfterFirstPut secondPut) "hash-of-token"
     = Some (NodeCache.livetime cacheAfterFirstPut 60000 (Some 300)).
Proof.
  split.
  - apply (proj1 (expiry_instant_changes_only_by_storing_put
                    (claimsProvider := SampleProvider.provider)
                    cacheAfterFirstPut (ClaimsCache.Get 60000 "hash-of-token")
                    "hash-of-token")).
    simpl. tauto.
  - apply (proj2 (expiry_instant_changes_only_by_storing_put
                    (claimsProvider := SampleProvider.provider)
                    cacheAfterFirstPut secondPut "hash-of-token")
                 60000 (SampleProvider.alice 3600) 300); reflexivity.
Defined.

(** ** C9: the second request of a token is a cache hit *)

Section CachingAuthorizer.

Import Claims NodeCache ClaimsCache ClaimsCachingAuthorizer.

Context {claimsProvider : ClaimsProvider}.
Variable digest : string -> string.
Variable assemble : TokenClaims -> ApiClaims.





End CachingAuthorizer.

Section SpecProviderRoundTrip.

Import SpecProvider.





End SpecProviderRoundTrip.



Example second_request_values :
  fst afterFirstRequest = SampleProvider.alice 3600
  /\ fst afterSecondRequest = SampleProvider.alice 3600
  /\ ClaimsCachingAuthorizer.assemblerCalls (snd afterSecondRequest) = 1%nat.
Proof. repeat split; vm_compute; reflexivity. Qed.

(** ** C6: exceptions outside the taxonomy *)

Section FromException.

Import ErrorUtils.

Context {codes : BaseErrorCodes}.

Lemma fromException_typed_api (a : ApiError) :
  fromException (IsApiError a) = Return (inl a).
Proof. reflexivity. Qed.

Lemma fromException_typed_client (c : ClientError) :
  fromException (IsClientError c) = Return (inr c).
Proof. reflexivity. Qed.

Lemma fromException_extended (x : ExtendedError) :
  exists a, fromException (IsExtendedError x) = Return (inl a)
            /\ statusCode a = 500 /\ code a = ext_code x /\ message a = ext_message x.
Proof.
  unfold fromException, tryConvertToApiError.
  destruct (ext_details x) as [d|]; [destruct (Js.truthy_string d)|];
    eexists; split; try reflexivity; repeat split.
Qed.

(** The conversion never gives a client error for an exception that is
    not one, and it gives nothing but typed errors. *)
Lemma fromException_client_only_from_client (e : exception) (c : ClientError) :
  fromException e = Return (inr c) -> e = IsClientError c.
Proof.
  destruct e as [|a|x|c'|o]; unfold fromException; simpl; try discriminate.
  - destruct (ext_details x) as [d|]; [destruct (Js.truthy_string d)|]; discriminate.
  - intros [= ->]. reflexivity.
  - unfold createApiError. simpl.
    destruct (_getExceptionDetailsMessage o); discriminate.
Qed.

(** The details of a thrown value are read when it has a message or a
    [toString], and reading them throws otherwise. *)
Lemma getExceptionDetailsMessage_readable (o : Thrown) :
  (hasMessage o = true \/ is_Some (thrown_toString o) ->
   exists details, _getExceptionDetailsMessage o = Return details)
  /\ (~ (hasMessage o = true \/ is_Some (thrown_toString o)) ->
      exists typeError, _getExceptionDetailsMessage o = Throw typeError).
Proof.
  unfold _getExceptionDetailsMessage, detailsOfToString, hasMessage.
  destruct (thrown_message o) as [m|]; [destruct (Js.truthy_string m)|];
    destruct (thrown_toString o) as [text|]; try case_bool_decide;
    split; intros Hr; eauto;
    try (exfalso; apply Hr; eauto; fail);
    try (destruct Hr as [Hm|[x Hx]]; discriminate).
Qed.

(** C6, as amended. Every exception value that is not one of the typed
    errors, other than [null] and [undefined] and other than an object with
    no message and no [toString] to call, is converted to the server error:
    an [ApiError] with the server error code, the default message and HTTP
    status 500. For the values left out the conversion itself throws. In no
    case is the result anything but a typed error. *)
Theorem untyped_exception_becomes_server_error (e : exception) :
  untyped e ->
  (readable e ->
   exists apiError,
     fromException e = Return (inl apiError)
     /\ statusCode apiError = 500
     /\ code apiError = serverError
     /\ message apiError = defaultMessage
     /\ httpStatus (inl apiError) = 500)
  /\ (~ readable e -> exists typeError, fromException e = Throw typeError).
Proof.
  intros Huntyped.
  destruct e as [|a|x|c|o]; simpl in Huntyped; try contradiction.
  - split; [intros []|]. intros _. eexists. reflexivity.
  - destruct (getExceptionDetailsMessage_readable o) as [Hread Hthrow].
    unfold fromException, createApiError. simpl. split.
    + intros Hreadable. destruct (Hread Hreadable) as [details ->].
      eexists. split; [reflexivity|]. repeat split.
    + intros Hnot. destruct (Hthrow Hnot) as [typeError ->].
      eexists. reflexivity.
Qed.

(** For [null] and [undefined] the conversion itself throws. *)
Lemma fromException_nullish_throws :
  exists typeError, fromException IsNullish = Throw typeError.
Proof. eexists. reflexivity. Qed.

End FromException.

Lemma nullish_exception_is_not_converted : ~ untyped_exception_always_converted.
Proof.
  intros Hclaim.
  destruct (Hclaim sampleCodes ErrorUtils.IsNullish I) as (apiError & Hreturn & _).
  discriminate Hreturn.
Qed.

Lemma untyped_exception_becomes_server_error_witness :
  exists apiError,
    ErrorUtils.fromException (codes := sampleCodes) thrownString
    = ErrorUtils.Return (inl apiError)
    /\ ErrorUtils.statusCode apiError = 500
    /\ ErrorUtils.code apiError = "server_error"
    /\ ErrorUtils.message apiError = ErrorUtils.defaultMessage
    /\ ErrorUtils.httpStatus (inl apiError) = 500.
Proof.
  apply (proj1 (untyped_exception_becomes_server_error (codes := sampleCodes)
                  thrownString I)).
  right. eexists. reflexivity.
Defined.

Example fromException_bare_object_throws :
  ErrorUtils.fromException (codes := sampleCodes) bareObject
  = ErrorUtils.Throw "e.toString is not a function".
Proof. reflexivity. Qed.

Example fromException_thrown_string :
  ErrorUtils.fromException (codes := sampleCodes) thrownString
  = ErrorUtils.Return
      (inl {| ErrorUtils.statusCode := 500;
              ErrorUtils.code := "server_error";
              ErrorUtils.message := "An unexpected exception occurred in the API";
              ErrorUtils.stack := None;
              ErrorUtils.details := "socket hang up" |}).
Proof. reflexivity. Qed.

(** ** C5: the response for each authorization outcome *)

Section AuthorizationResponses.

Import ErrorUtils WebApi.

Context {Claims : Type} {codes : BaseErrorCodes}.
Variable validate : string -> Js.settled Taxonomy.error Claims.
Variable emptyClaims : Claims.

Lemma authorizeRequest_by_outcome (authorizationHeader : option string) :
  authorizeRequest validate emptyClaims authorizationHeader
  = match outcome validate authorizationHeader with
    | Js.Resolved claims => Next claims
    | Js.Rejected Taxonomy.NoToken
    | Js.Rejected Taxonomy.TokenInvalid => Responded writeInvalidTokenResponse
    | Js.Rejected (Taxonomy.UpstreamUnavailable _ _) =>
        Responded {| status := 500; body := serverErrorBody |}
    end.
Proof.
  unfold authorizeRequest, authorizationHandler, authorizeRequestAndSetClaims, outcome.
  destruct (authorize validate (_readAccessToken authorizationHeader)) as [claims|[| |area url]];
    reflexivity.
Qed.

(** C5. A request whose authorization ends in [NoToken] or [TokenInvalid]
    is answered with HTTP 401 and one fixed body, the same for both; one
    that ends in [UpstreamUnavailable] is answered with HTTP 500 and a
    body that does not depend on the failure. A 401 is written only for
    an authentication failure and a 500 only for a server failure. *)
Theorem authentication_failure_401_upstream_500 (authorizationHeader : option string) :
  let result := authorizeRequest validate emptyClaims authorizationHeader in
  let o := outcome validate authorizationHeader in
  (o = Js.Rejected Taxonomy.NoToken \/ o = Js.Rejected Taxonomy.TokenInvalid ->
   result = Responded writeInvalidTokenResponse
   /\ status writeInvalidTokenResponse = 401)
  /\ (forall area url,
        o = Js.Rejected (Taxonomy.UpstreamUnavailable area url) ->
        result = Responded {| status := 500; body := serverErrorBody |})
  /\ (forall r,
        result = Responded r ->
        exists e, o = Js.Rejected e
                  /\ (status r = 401 <-> Taxonomy.classOf e = Taxonomy.AuthenticationFailure)
                  /\ (status r = 500 <-> Taxonomy.classOf e = Taxonomy.ServerFailure))
  /\ (forall claims, o = Js.Resolved claims -> result = Next claims).
Proof.
  intros result o. subst result o.
  rewrite authorizeRequest_by_outcome.
  destruct (outcome validate authorizationHeader) as [claims|[| |area url]].
  - split; [intros [H|H]; discriminate H|].
    split; [intros area url H; discriminate H|].
    split; [intros r H; discriminate H|].
    intros claims' [= ->]. reflexivity.
  - split; [intros _; split; reflexivity|].
    split; [intros area url H; discriminate H|].
    split; [|intros claims H; discriminate H].
    intros r [= <-]. exists Taxonomy.NoToken. simpl.
    split; [reflexivity|]. split; [tauto|]. split; discriminate.
  - split; [intros _; split; reflexivity|].
    split; [intros area url H; discriminate H|].
    split; [|intros claims H; discriminate H].
    intros r [= <-]. exists Taxonomy.TokenInvalid. simpl.
    split; [reflexivity|]. split; [tauto|]. split; discriminate.
  - split; [intros [H|H]; discriminate H|].
    split; [intros area' url' _; reflexivity|].
    split; [|intros claims H; discriminate H].
    intros r [= <-]. exists (Taxonomy.UpstreamUnavailable area url). simpl.
    split; [reflexivity|]. split; [split; discriminate|tauto].
Qed.

End AuthorizationResponses.

(** ** C7: the memoized discovery metadata *)

Section MetadataMemo.

Import Http ClaimsHandler Process.

Context {handled : Type} {errorHandler : ErrorHandler.Ops handled}.
Variable oauthConfig : OAuthConfig.

Local Open Scope list_scope.

Abbreviation world := (Process.world (handled := handled)).

Lemma discoveryRequests_app (w : world) (out : list sent) (s : sent) :
  outbound w = out ->
  length (filter (fun x => isDiscovery x = true) (out ++ [s]))
  = (length (filter (fun x => isDiscovery x = true) out)
     + (if isDiscovery s then 1 else 0))%nat.
Proof.
  intros _. rewrite filter_app, length_app. f_equal.
  destruct s; reflexivity.
Qed.

Lemma start_readTokenData_memo (w : world) (id : nat) (token : string) (m : Metadata) :
  metadata w = Some m ->
  metadata (start_readTokenData w id token) = Some m
  /\ outbound (start_readTokenData w id token)
     = outbound w ++ [Introspection (introspection_endpoint m) token].
Proof. intros Hm. unfold start_readTokenData. rewrite Hm. simpl. auto. Qed.

Lemma start_readCentralUserData_memo (w : world) (id : nat) (token : string)
      (tokenData : TokenData) (m : Metadata) :
  metadata w = Some m ->
  metadata (start_readCentralUserData w id token tokenData) = Some m
  /\ outbound (start_readCentralUserData w id token tokenData)
     = outbound w ++ [UserInfoCall (userinfo_endpoint m) token].
Proof. intros Hm. unfold start_readCentralUserData. rewrite Hm. simpl. auto. Qed.

(** A call that starts when the metadata is memoized reads it and sends
    the introspection request, nothing else. *)
Lemma lookupClaims_memoized (w w' : world) (id : nat) (token : string) (m : Metadata) :
  metadata w = Some m ->
  step oauthConfig w (LookupClaims id token) = Some w' ->
  metadata w' = Some m
  /\ outbound w' = outbound w ++ [Introspection (introspection_endpoint m) token].
Proof.
  intros Hm. simpl. destruct (handlers w !! id); [discriminate|].
  intros [= <-]. unfold lookupClaims. rewrite Hm.
  apply start_readTokenData_memo. assumption.
Qed.

(** Once memoized, the metadata stays, and no step sends a discovery
    request. *)
Lemma step_memoized (w w' : world) (e : event) :
  is_Some (metadata w) ->
  step oauthConfig w e = Some w' ->
  is_Some (metadata w') /\ discoveryRequests w' = discoveryRequests w.
Proof.
  intros [m Hm] Hstep. unfold discoveryRequests.
  destruct e as [id token|id o|id o|id o]; simpl in Hstep.
  - destruct (lookupClaims_memoized w w' id token m Hm Hstep) as [Hm' Hout].
    rewrite Hm', Hout. split; [eauto|].
    rewrite (discoveryRequests_app w) by reflexivity. simpl. lia.
  - destruct (handlers w !! id) as [[token [| |td|r]]|]; try discriminate.
    destruct (_getMetadata_settle oauthConfig o) as [data|err].
    + injection Hstep as <-.
      destruct (start_readTokenData_memo
                  {| metadata := Some data; handlers := handlers w; outbound := outbound w |}
                  id token data eq_refl) as [Hm' Hout].
      rewrite Hm', Hout. split; [eauto|]. simpl.
      rewrite (discoveryRequests_app w) by reflexivity. simpl. lia.
    + injection Hstep as <-. simpl. split; [eauto|reflexivity].
  - destruct (handlers w !! id) as [[token [| |td|r]]|]; try discriminate.
    destruct (_readTokenData (metadata w) o) as [tokenData|err].
    + injection Hstep as <-.
      destruct (start_readCentralUserData_memo w id token tokenData m Hm) as [Hm' Hout].
      rewrite Hm', Hout. split; [eauto|].
      rewrite (discoveryRequests_app w) by reflexivity. simpl. lia.
    + injection Hstep as <-. simpl. split; [eauto|reflexivity].
  - destruct (handlers w !! id) as [[token [| |td|r]]|]; try discriminate.
    rewrite Hm in Hstep. injection Hstep as <-. simpl. split; [eauto|reflexivity].
Qed.

Lemma run_memoized (events : list event) (w w' : world) :
  is_Some (metadata w) ->
  run oauthConfig w events = Some w' ->
  is_Some (metadata w') /\ discoveryRequests w' = discoveryRequests w.
Proof.
  revert w. induction events as [|e later IH]; intros w Hm; simpl.
  - intros [= <-]. auto.
  - destruct (step oauthConfig w e) as [w1|] eqn:Hstep; [|discriminate].
    intros Hrun.
    destruct (step_memoized w w1 e Hm Hstep) as [Hm1 Hd1].
    destruct (IH w1 Hm1 Hrun) as [Hm' Hd']. split; [assumption|congruence].
Qed.

Lemma consistent_insert (w : world) (id : nat) (h : handler (handled := handled))
      (out : list sent) :
  consistent w ->
  ~ pastMetadata (at_ h) ->
  consistent {| metadata := metadata w; handlers := <[id := h]> (handlers w); outbound := out |}.
Proof.
  intros Hc Hh Hnone id' h'. simpl in *.
  destruct (decide (id = id')) as [->|Hne].
  - rewrite lookup_insert_eq. intros [= <-]. assumption.
  - rewrite lookup_insert_ne by assumption. apply Hc. assumption.
Qed.

Lemma consistent_memoized (w : world) : is_Some (metadata w) -> consistent w.
Proof. intros [m Hm] Hnone. congruence. Qed.

Lemma step_consistent (w w' : world) (e : event) :
  consistent w -> step oauthConfig w e = Some w' -> consistent w'.
Proof.
  intros Hc Hstep.
  destruct (metadata w) as [m|] eqn:Hm.
  - apply consistent_memoized.
    apply (step_memoized w w' e); [rewrite Hm; eauto|assumption].
  - destruct e as [id token|id o|id o|id o]; simpl in Hstep.
    + destruct (handlers w !! id); [discriminate|]. injection Hstep as <-.
      unfold lookupClaims. rewrite Hm. rewrite <- Hm.
      apply consistent_insert; [assumption|]. simpl. tauto.
    + destruct (handlers w !! id) as [[token [| |td|r]]|]; try discriminate.
      destruct (_getMetadata_settle oauthConfig o) as [data|err]; injection Hstep as <-.
      * apply consistent_memoized. unfold start_readTokenData. simpl. eauto.
      * unfold finish. apply consistent_insert; [assumption|]. simpl. tauto.
    + destruct (handlers w !! id) as [[token [| |td|r]]|] eqn:Hh; try discriminate.
      exfalso. apply (Hc Hm id _ Hh). simpl. exact I.
    + destruct (handlers w !! id) as [[token [| |td|r]]|] eqn:Hh; try discriminate.
      exfalso. apply (Hc Hm id _ Hh). simpl. exact I.
Qed.

Lemma run_consistent (events : list event) (w w' : world) :
  consistent w -> run oauthConfig w events = Some w' -> consistent w'.
Proof.
  revert w. induction events as [|e later IH]; intros w Hc; simpl.
  - intros [= <-]. assumption.
  - destruct (step oauthConfig w e) as [w1|] eqn:Hstep; [|discriminate].
    apply IH. apply (step_consistent w w1 e); assumption.
Qed.

Lemma initial_consistent : consistent (handled := handled) initial.
Proof. intros _ id h Hh. simpl in Hh. rewrite lookup_empty in Hh. discriminate. Qed.

(** What the code does keep of the memoization. A validation call that
    starts when the metadata is memoized reads the memoized metadata and
    sends no discovery request; once memoized, the metadata stays memoized
    and the number of discovery requests sent no longer grows; and no
    request is given claims while the endpoints of the authority are
    unresolved. *)
Theorem metadata_memoized_after_first_fetch :
  (forall (w w' : world) id token m,
      metadata w = Some m ->
      step oauthConfig w (LookupClaims id token) = Some w' ->
      metadata w' = Some m
      /\ outbound w' = outbound w ++ [Introspection (introspection_endpoint m) token])
  /\ (forall (w w' : world) events,
        is_Some (metadata w) ->
        run oauthConfig w events = Some w' ->
        is_Some (metadata w') /\ discoveryRequests w' = discoveryRequests w)
  /\ (forall events (w : world) id,
        run oauthConfig initial events = Some w ->
        served w id ->
        is_Some (metadata w)).
Proof.
  split; [|split].
  - intros w w' id token m. apply lookupClaims_memoized.
  - intros w w' events. apply run_memoized.
  - intros events w id Hrun (token & tokenData & Hh).
    pose proof (run_consistent events initial w initial_consistent Hrun) as Hc.
    destruct (metadata w) as [m|] eqn:Hm; [eauto|].
    exfalso. apply (Hc Hm id _ Hh). simpl. exact I.
Qed.

End MetadataMemo.

Example overlapping_requests_fetch_twice :
  (Process.discoveryRequests <$> sampleRun overlappingRequests) = Some 2%nat
  /\ Process.metadataFetched overlappingRequests = 2%nat
  /\ (Process.outbound <$> sampleRun overlappingRequests)
     = Some [ Process.Discovery "https://login.example.com/.well-known/openid-configuration";
              Process.Discovery "https://login.example.com/.well-known/openid-configuration";
              Process.Introspection "https://login.example.com/oauth2/introspect" "token-a";
              Process.Introspection "https://login.example.com/oauth2/introspect" "token-b" ].
Proof. repeat split; vm_compute; reflexivity. Qed.

(** C7. The code at the failing input: two requests that both start before
    the first discovery response arrives each send the discovery request,
    and both responses arrive, so the metadata is fetched twice in one
    process; the comment of the source says it is read once only. *)
Lemma overlapping_requests_fetch_metadata_twice : ~ metadata_fetched_at_most_once.
Proof.
  intros Hclaim.
  destruct (sampleRun overlappingRequests) as [w|] eqn:Hrun;
    [|vm_compute in Hrun; discriminate Hrun].
  specialize (Hclaim sampleConfig overlappingRequests w Hrun).
  vm_compute in Hclaim. lia.
Qed.

Lemma metadata_memoized_after_first_fetch_witness :
  (forall w',
      Process.step (errorHandler := ErrorHandler.fromSpec) sampleConfig afterFirstFetch
        (Process.LookupClaims 1 "token-b") = Some w' ->
      Process.metadata w' = Some sampleMetadata
      /\ Process.outbound w'
         = (Process.outbound afterFirstFetch
              ++ [Process.Introspection
                    (ClaimsHandler.introspection_endpoint sampleMetadata) "token-b"])%list)
  /\ is_Some (Process.metadata afterFirstFetch).
Proof.
  pose proof (metadata_memoized_after_first_fetch
                (errorHandler := ErrorHandler.fromSpec) sampleConfig)
    as (Hcall & _ & Hserved).
  split.
  - intros w'.
    apply (Hcall afterFirstFetch w' 1%nat "token-b" sampleMetadata).
    vm_compute. reflexivity.
  - apply (Hserved firstRequest afterFirstFetch 0%nat).
    + vm_compute. reflexivity.
    + eexists _, _. vm_compute. reflexivity.
Defined.

(** ** C10: the strategies selected from the configuration *)

Section StrategySelection.

Import BaseCompositionRoot.

Variable oauth : OAuthConfiguration.
Variable unsecured : list string.
Variable proxyUrl : string.

Lemma registered_authorizer :
  _authorizer (registered oauth unsecured proxyUrl)
  = Some {| class := if bool_decide (strategy oauth = Js.VString "claims-caching")
                     then ClaimsCachingAuthorizer else StandardAuthorizer;
            unsecuredPaths := unsecured |}.
Proof. reflexivity. Qed.

Lemma registered_cache :
  bound (_container (registered oauth unsecured proxyUrl)) ClaimsCacheId
  = if bool_decide (strategy oauth = Js.VString "claims-caching")
    then [toConstantValue
            (TheClaimsCache (ClaimsCache.create (claimsCacheTimeToLiveMinutes oauth)))]
    else [].
Proof.
  unfold registered, register, _registerClaimsDependencies, _registerOAuthDependencies,
    _registerBaseDependencies, configured. simpl.
  do 2 case_bool_decide; reflexivity.
Qed.

Lemma registered_validator :
  bound (_container (registered oauth unsecured proxyUrl)) TokenValidatorId
  = [toInRequestScope
       (if bool_decide (tokenValidationStrategy oauth = Js.VString "introspection")
        then IntrospectionValidator else JwtValidator)].
Proof.
  unfold registered, register, _registerClaimsDependencies, _registerOAuthDependencies,
    _registerBaseDependencies, configured. simpl.
  do 2 case_bool_decide; reflexivity.
Qed.

Lemma registered_jwksClient :
  bound (_container (registered oauth unsecured proxyUrl)) JwksClientId
  = if bool_decide (tokenValidationStrategy oauth = Js.VString "introspection")
    then []
    else [toConstantValue (jwksClientOf oauth proxyUrl)].
Proof.
  unfold registered, register, _registerClaimsDependencies, _registerOAuthDependencies,
    _registerBaseDependencies, configured. simpl.
  do 2 case_bool_decide; reflexivity.
Qed.

(** C10. Whatever the configuration holds, registration completes. The
    authorizer is the claims caching one, and one claims cache is bound as
    a constant, exactly when the strategy is the string [claims-caching];
    for any other value the authorizer is the standard one and no cache is
    bound. The token validator bound is the introspection validator
    exactly when the token validation strategy is the string
    [introspection]; for any other value it is the JWT validator, with its
    JWKS client. *)
Theorem strategy_selection_defaults :
  let container := _container (registered oauth unsecured proxyUrl) in
  (exists authorizer,
      _authorizer (registered oauth unsecured proxyUrl) = Some authorizer
      /\ unsecuredPaths authorizer = unsecured
      /\ (class authorizer = ClaimsCachingAuthorizer
          <-> strategy oauth = Js.VString "claims-caching")
      /\ (class authorizer = StandardAuthorizer
          <-> strategy oauth <> Js.VString "claims-caching"))
  /\ (bound container ClaimsCacheId
      = [toConstantValue
           (TheClaimsCache (ClaimsCache.create (claimsCacheTimeToLiveMinutes oauth)))]
      <-> strategy oauth = Js.VString "claims-caching")
  /\ (bound container ClaimsCacheId = []
      <-> strategy oauth <> Js.VString "claims-caching")
  /\ (bound container TokenValidatorId = [toInRequestScope IntrospectionValidator]
      <-> tokenValidationStrategy oauth = Js.VString "introspection")
  /\ (bound container TokenValidatorId = [toInRequestScope JwtValidator]
      /\ bound container JwksClientId = [toConstantValue (jwksClientOf oauth proxyUrl)]
      <-> tokenValidationStrategy oauth <> Js.VString "introspection").
Proof.
  intros container. subst container.
  rewrite registered_authorizer, registered_cache, registered_validator, registered_jwksClient.
  split; [eexists; split; [reflexivity|]; simpl|];
    repeat case_bool_decide; intuition (try congruence; try discriminate).
Qed.

End StrategySelection.

Example strategy_misspelt_selects_standard :
  BaseCompositionRoot._authorizer
    (registered
       {| BaseCompositionRoot.strategy := Js.VString "claims-cacheing";
          BaseCompositionRoot.tokenValidationStrategy := Js.VString "Introspection";
          BaseCompositionRoot.jwksEndpoint := "https://login.example.com/jwks";
          BaseCompositionRoot.claimsCacheTimeToLiveMinutes := 30 |}
       ["/api/health"] "")
  = Some {| BaseCompositionRoot.class := BaseCompositionRoot.StandardAuthorizer;
            BaseCompositionRoot.unsecuredPaths := ["/api/health"] |}.
Proof. reflexivity. Qed.

Example strategy_missing_selects_jwt :
  BaseCompositionRoot.bound
    (BaseCompositionRoot._container
       (registered
          {| BaseCompositionRoot.strategy := Js.VUndefined;
             BaseCompositionRoot.tokenValidationStrategy := Js.VUndefined;
             BaseCompositionRoot.jwksEndpoint := "https://login.example.com/jwks";
             BaseCompositionRoot.claimsCacheTimeToLiveMinutes := 30 |}
          [] ""))
    BaseCompositionRoot.TokenValidatorId
  = [BaseCompositionRoot.toInRequestScope BaseCompositionRoot.JwtValidator].
Proof. reflexivity. Qed.

(** ** C5: a run of the authorization handler *)

Lemma authentication_failure_401_upstream_500_witness :
  WebApi.authorizeRequest (codes := sampleCodes) sampleValidate "" None
  = WebApi.Responded WebApi.writeInvalidTokenResponse
  /\ WebApi.authorizeRequest (codes := sampleCodes) sampleValidate ""
       (Some "Bearer expired-token")
     = WebApi.Responded WebApi.writeInvalidTokenResponse
  /\ WebApi.authorizeRequest (codes := sampleCodes) sampleValidate ""
       (Some "Bearer other-token")
     = WebApi.Responded {| WebApi.status := 500;
                           WebApi.body := serverErrorBody (codes := sampleCodes) |}.
Proof.
  split; [|split].
  - apply (proj1 (authentication_failure_401_upstream_500 (codes := sampleCodes)
                    sampleValidate "" None)).
    left. reflexivity.
  - apply (proj1 (authentication_failure_401_upstream_500 (codes := sampleCodes)
                    sampleValidate "" (Some "Bearer expired-token"))).
    right. reflexivity.
  - apply (proj1 (proj2 (authentication_failure_401_upstream_500 (codes := sampleCodes)
                           sampleValidate "" (Some "Bearer other-token")))
             "introspection" "https://login.example.com/oauth2/introspect").
    reflexivity.
Defined.

Example good_token_proceeds :
  WebApi.authorizeRequest (codes := sampleCodes) sampleValidate "" (Some "Bearer good-token")
  = WebApi.Next "alice".
Proof. reflexivity. Qed.

(** * Further properties of the code *)

(** ** The API base path *)

Lemma lowerChar_idempotent (c : ascii) :
  JsText.lowerChar (JsText.lowerChar c) = JsText.lowerChar c.
Proof. destruct c as [[] [] [] [] [] [] [] []]; reflexivity. Qed.

Lemma toLowerCase_idempotent (s : string) :
  JsText.toLowerCase (JsText.toLowerCase s) = JsText.toLowerCase s.
Proof.
  induction s as [|c rest IH]; simpl; [reflexivity|].
  rewrite lowerChar_idempotent, IH. reflexivity.
Qed.

Lemma toLowerCase_app (s t : string) :
  JsText.toLowerCase (s +:+ t) = JsText.toLowerCase s +:+ JsText.toLowerCase t.
Proof. induction s as [|c rest IH]; simpl; [reflexivity|]. rewrite IH. reflexivity. Qed.

Lemma endsWith_app (s t : string) : JsText.endsWith (s +:+ t) t = true.
Proof.
  induction s as [|c rest IH]; simpl.
  - destruct t; simpl; rewrite ?String.eqb_refl, ?Ascii.eqb_refl; reflexivity.
  - rewrite IH. apply orb_true_r.
Qed.

(** X1. The base path kept by [useApiBasePath] always ends with a slash
    and has no upper case letter left, and giving a kept base path to
    [useApiBasePath] again changes nothing. *)
Theorem useApiBasePath_normal_form (apiBasePath : string) :
  let kept := BasePath.useApiBasePath apiBasePath in
  JsText.endsWith kept "/" = true
  /\ JsText.toLowerCase kept = kept
  /\ BasePath.useApiBasePath kept = kept
  /\ (kept = JsText.toLowerCase apiBasePath
      \/ kept = JsText.toLowerCase apiBasePath +:+ "/").
Proof.
  intros kept. subst kept. unfold BasePath.useApiBasePath.
  destruct (JsText.endsWith (JsText.toLowerCase apiBasePath) "/") eqn:Hends; simpl.
  - rewrite toLowerCase_idempotent, Hends. simpl. repeat split; auto.
  - rewrite toLowerCase_app, toLowerCase_idempotent.
    change (JsText.toLowerCase "/") with "/".
    rewrite endsWith_app. simpl. repeat split; auto.
Qed.

Example useApiBasePath_samples :
  BasePath.useApiBasePath "/API" = "/api/"
  /\ BasePath.useApiBasePath "/api/" = "/api/"
  /\ BasePath.useApiBasePath "" = "/".
Proof. repeat split; reflexivity. Qed.

(** ** Company ids *)

Lemma leadingDigits_noDigitAhead (s : string) :
  noDigitAhead s -> JsText.leadingDigits s = [].
Proof. destruct s as [|c rest]; simpl; [reflexivity|]. intros ->. reflexivity. Qed.

Ltac uint_cases d IH :=
  induction d as [|d IH|d IH|d IH|d IH|d IH|d IH|d IH|d IH|d IH|d IH].

(** Reading the digits of a decimal number continues the accumulation
    that [Pos.of_uint_acc] makes. *)
Lemma digits_of_uint_acc (d : Decimal.uint) (acc : positive) (rest : string) :
  fold_left (fun a x => 10 * a + x)
    (JsText.leadingDigits (NilEmpty.string_of_uint d +:+ rest)) (Z.pos acc)
  = fold_left (fun a x => 10 * a + x)
      (JsText.leadingDigits rest) (Z.pos (Pos.of_uint_acc d acc)).
Proof.
  revert acc. uint_cases d IH; intros acc; [reflexivity|..];
    simpl; rewrite <- IH; f_equal;
    unfold JsText.digitValue, JsText.code; simpl; lia.
Qed.

(** The same from the start of a number, where leading zeros count for
    nothing. *)
Lemma digits_of_uint (d : Decimal.uint) (rest : string) :
  fold_left (fun a x => 10 * a + x)
    (JsText.leadingDigits (NilEmpty.string_of_uint d +:+ rest)) 0
  = fold_left (fun a x => 10 * a + x)
      (JsText.leadingDigits rest) (Z.of_N (Pos.of_uint d)).
Proof.
  uint_cases d IH; [reflexivity|..]; simpl;
    try (rewrite <- IH; f_equal; unfold JsText.digitValue, JsText.code; simpl; lia);
    rewrite <- digits_of_uint_acc; f_equal.
Qed.

Lemma leadingDigits_of_uint_nonempty (d : Decimal.uint) (rest : string) :
  d <> Decimal.Nil ->
  JsText.leadingDigits (NilEmpty.string_of_uint d +:+ rest) <> [].
Proof. destruct d; simpl; congruence. Qed.

(** The digits of a positive number, followed by anything that does not go
    on with a digit, are read back as the number. *)
Lemma parseDigits_positive (p : positive) (rest : string) :
  noDigitAhead rest ->
  JsText.parseDigits (NilEmpty.string_of_uint (Pos.to_uint p) +:+ rest) = Some (Z.pos p).
Proof.
  intros Hrest. unfold JsText.parseDigits.
  pose proof (leadingDigits_of_uint_nonempty (Pos.to_uint p) rest
                (DecimalPos.Unsigned.to_uint_nonnil p)) as Hne.
  pose proof (digits_of_uint (Pos.to_uint p) rest) as Hval.
  rewrite (leadingDigits_noDigitAhead rest Hrest) in Hval. simpl in Hval.
  rewrite DecimalPos.Unsigned.of_to in Hval.
  destruct (JsText.leadingDigits (NilEmpty.string_of_uint (Pos.to_uint p) +:+ rest))
    as [|x xs]; [congruence|].
  unfold JsText.digitsValue. rewrite Hval. reflexivity.
Qed.

(** A decimal number starts with a digit. *)
Lemma string_of_uint_starts_with_digit (d : Decimal.uint) (rest : string) :
  d <> Decimal.Nil ->
  exists c tail,
    NilEmpty.string_of_uint d +:+ rest = String c tail /\ JsText.isDigit c = true.
Proof. destruct d; simpl; try congruence; intros _; eauto. Qed.

Lemma trimStart_skips (ws s : string) :
  Forall (fun c => JsText.isWhiteSpace c = true) (list_ascii_of_string ws) ->
  JsText.trimStart (ws +:+ s) = JsText.trimStart s.
Proof.
  induction ws as [|c rest IH]; simpl; [reflexivity|].
  intros H. inversion H as [|? ? Hc Hrest]; subst. rewrite Hc. auto.
Qed.

(** [parseInt] reads back the text of every integer, whatever white space
    comes before it and whatever text that is not a digit comes after. *)
Lemma parseInt_ofInteger (n : Z) (ws rest : string) :
  Forall (fun c => JsText.isWhiteSpace c = true) (list_ascii_of_string ws) ->
  noDigitAhead rest ->
  JsText.parseInt (ws +:+ JsText.ofInteger n +:+ rest) = Some n.
Proof.
  intros Hws Hrest. unfold JsText.parseInt. rewrite trimStart_skips by assumption.
  destruct n as [|p|p].
  - destruct rest as [|c tail]; simpl in *; [reflexivity|].
    unfold JsText.parseDigits. simpl. rewrite Hrest. reflexivity.
  - pose proof (DecimalPos.Unsigned.to_uint_nonnil p) as Hnil.
    assert (JsText.ofInteger (Z.pos p) = NilEmpty.string_of_uint (Pos.to_uint p)) as ->.
    { change (JsText.ofInteger (Z.pos p)) with (NilZero.string_of_uint (Pos.to_uint p)).
      destruct (Pos.to_uint p); [congruence|reflexivity..]. }
    destruct (string_of_uint_starts_with_digit (Pos.to_uint p) rest Hnil)
      as (c & tail & Heq & Hdigit).
    pose proof (parseDigits_positive p rest Hrest) as Hparse.
    rewrite Heq in *.
    destruct c as [[] [] [] [] [] [] [] []];
      try (vm_compute in Hdigit; discriminate Hdigit); exact Hparse.
  - pose proof (DecimalPos.Unsigned.to_uint_nonnil p) as Hnil.
    assert (JsText.ofInteger (Z.neg p)
            = String "-" (NilEmpty.string_of_uint (Pos.to_uint p))) as ->.
    { change (JsText.ofInteger (Z.neg p))
        with (String "-" (NilZero.string_of_uint (Pos.to_uint p))).
      destruct (Pos.to_uint p); [congruence|reflexivity..]. }
    pose proof (parseDigits_positive p rest Hrest) as Hparse.
    remember (NilEmpty.string_of_uint (Pos.to_uint p) +:+ rest) as text.
    change (String "-" (NilEmpty.string_of_uint (Pos.to_uint p)) +:+ rest)
      with (String "-" (NilEmpty.string_of_uint (Pos.to_uint p) +:+ rest)).
    rewrite <- Heqtext.
    change (JsText.trimStart (String "-" text)) with (String "-" text).
    cbv iota beta. rewrite Hparse. reflexivity.
Qed.

Lemma parseDigits_none (s : string) :
  JsText.parseDigits s = None <-> noDigitAhead s.
Proof.
  unfold JsText.parseDigits. destruct s as [|c rest]; simpl; [tauto|].
  destruct (JsText.isDigit c); split; intros H; try discriminate; reflexivity.
Qed.

(** [parseInt] gives [NaN] exactly when no digit follows the white space
    and the sign. *)
Lemma parseInt_NaN (s : string) :
  JsText.parseInt s = None <-> noDigitAhead (afterSign s).
Proof.
  unfold JsText.parseInt, afterSign.
  destruct (JsText.trimStart s) as [|c rest]; [simpl; tauto|].
  destruct c as [[] [] [] [] [] [] [] []];
    try apply parseDigits_none;
    rewrite <- parseDigits_none;
    destruct (JsText.parseDigits rest); simpl; split; congruence.
Qed.

Section CompanyTransactions.

Import ErrorUtils CompanyRoutes.

Context {Claims : Type}.

(** X2. A company id that is the text of an integer [n] below 2^53 in
    size, with any white space before it and any text that does not start
    with a digit after it, reaches the controller as [n] when [n] is
    positive and is refused with the 400 error [invalid_company_id] when [n]
    is zero or negative. *)
Theorem company_id_read_as_integer
    (controller : Claims -> Z -> Js.settled exception WebApi.Body)
    (claims : Claims) (n : Z) (ws rest : string) :
  Z.abs n < 2 ^ 53 ->
  Forall (fun c => JsText.isWhiteSpace c = true) (list_ascii_of_string ws) ->
  noDigitAhead rest ->
  getCompanyTransactions controller claims (ws +:+ JsText.ofInteger n +:+ rest)
  = if 0 <? n
    then Js.then_ (controller claims n)
           (fun result => Js.Resolved (WebApi.writeObjectResponse 200 result))
    else Js.Rejected (IsClientError invalidCompanyId).
Proof.
  intros _ Hws Hrest. unfold getCompanyTransactions.
  rewrite (parseInt_ofInteger n ws rest Hws Hrest).
  destruct (Z.leb_spec n 0) as [Hle|Hgt]; destruct (Z.ltb_spec 0 n); try lia; reflexivity.
Qed.

(** A no-break space before the digits is skipped as the space is: the id
    [U+00A0 12] is read as 12. *)
Example parseInt_skips_no_break_space :
  JsText.parseInt (String "194" (String "160" "12")) = Some 12
  /\ JsText.parseInt (String "239" (String "187" (String "191" " -7"))) = Some (-7)
  /\ JsText.parseInt (String "194" "12") = None.
Proof. repeat split. Qed.

(** X3. A company id in which no digit follows the leading white space and
    sign is refused with the 400 error [invalid_company_id] whatever the
    controller would do; and the controller is only ever asked about ids
    that are positive: two controllers that agree on the positive ids give
    the same result for every request. *)
Theorem company_id_checked_before_controller
    (controller : Claims -> Z -> Js.settled exception WebApi.Body)
    (claims : Claims) (idParam : string) :
  (noDigitAhead (afterSign idParam) ->
   getCompanyTransactions controller claims idParam
   = Js.Rejected (IsClientError invalidCompanyId))
  /\ (forall other : Claims -> Z -> Js.settled exception WebApi.Body,
        (forall id, 0 < id -> other claims id = controller claims id) ->
        getCompanyTransactions other claims idParam
        = getCompanyTransactions controller claims idParam).
Proof.
  split.
  - intros Hnan. unfold getCompanyTransactions.
    rewrite (proj2 (parseInt_NaN idParam) Hnan). reflexivity.
  - intros other Hagree. unfold getCompanyTransactions.
    destruct (JsText.parseInt idParam) as [id|]; [|reflexivity].
    destruct (Z.leb_spec id 0) as [Hle|Hgt]; [reflexivity|].
    rewrite Hagree by assumption. reflexivity.
Qed.

End CompanyTransactions.

Lemma company_id_read_as_integer_witness :
  CompanyRoutes.getCompanyTransactions sampleController "alice" " 12abc"
  = Js.Resolved (WebApi.writeObjectResponse 200
                   {| WebApi.bodyCode := "alice"; WebApi.bodyMessage := "12" |})
  /\ CompanyRoutes.getCompanyTransactions sampleController "alice" "-3"
     = Js.Rejected (ErrorUtils.IsClientError CompanyRoutes.invalidCompanyId).
Proof.
  split.
  - apply (company_id_read_as_integer sampleController "alice" 12 " " "abc").
    + reflexivity.
    + repeat constructor.
    + reflexivity.
  - apply (company_id_read_as_integer sampleController "alice" (-3) "" "").
    + reflexivity.
    + constructor.
    + exact I.
Defined.

Lemma company_id_checked_before_controller_witness :
  CompanyRoutes.getCompanyTransactions sampleController "alice" "abc"
  = Js.Rejected (ErrorUtils.IsClientError CompanyRoutes.invalidCompanyId)
  /\ CompanyRoutes.getCompanyTransactions sampleController "alice" ""
     = Js.Rejected (ErrorUtils.IsClientError CompanyRoutes.invalidCompanyId).
Proof.
  split.
  - apply (proj1 (company_id_checked_before_controller sampleController "alice" "abc")).
    reflexivity.
  - apply (proj1 (company_id_checked_before_controller sampleController "alice" "")).
    exact I.
Defined.

Example company_id_zero_refused :
  CompanyRoutes.getCompanyTransactions sampleController "alice" "0"
  = Js.Rejected (ErrorUtils.IsClientError CompanyRoutes.invalidCompanyId)
  /\ CompanyRoutes.getCompanyTransactions sampleController "alice" "007"
     = Js.Resolved (WebApi.writeObjectResponse 200
                      {| WebApi.bodyCode := "alice"; WebApi.bodyMessage := "7" |}).
Proof. split; reflexivity. Qed.

(** ** The files of the web application *)

Section WebFiles.

Import HttpConfiguration.

Variable join : string -> string.
Variable dirname : string.

(** X4. For a request path [/spa/] followed by any text, the file sent is
    the one at that text under the [spa] folder of the web root, only the
    first [spa/] of the path being removed; for the bare [/spa/] it is the
    index page, the same file as the route [/spa] sends. *)
Theorem web_resource_under_spa_folder (rest : string) :
  _getWebResource join dirname ("/spa/" +:+ rest)
  = join (dirname +:+ "/../../../spa/"
          +:+ (if String.eqb rest "" then "index.html" else "/" +:+ rest))
  /\ _getWebResource join dirname "/spa/" = _getWebRootResource join dirname.
Proof.
  split; [|reflexivity].
  unfold _getWebResource.
  change (JsText.replace "spa/" "" ("/spa/" +:+ rest)) with ("/" +:+ rest).
  destruct rest as [|c tail]; reflexivity.
Qed.

End WebFiles.

(** ** The bearer header sent and read *)

(** X5. The authorization header that the claims handler sends to the user
    info endpoint is read back by [_readAccessToken] as the same token
    exactly when the token has no space in it; with a space in the token
    nothing is read. *)
Theorem bearer_header_round_trip (accessToken : string) :
  (WebApi._readAccessToken (Some (UserInfoRequest.authorizationHeader accessToken))
   = Some accessToken
   <-> Js.includes " " accessToken = false)
  /\ (Js.includes " " accessToken = true ->
      WebApi._readAccessToken (Some (UserInfoRequest.authorizationHeader accessToken))
      = None).
Proof.
  assert (WebApi._readAccessToken (Some (UserInfoRequest.authorizationHeader accessToken))
          = Some accessToken
          <-> Js.includes " " accessToken = false) as Hiff.
  { rewrite readAccessToken_some. split.
    - intros (header & [= <-] & Hs). apply split_bearer in Hs. tauto.
    - intros Hclean. exists (UserInfoRequest.authorizationHeader accessToken).
      split; [reflexivity|]. apply split_bearer. auto. }
  split; [exact Hiff|].
  intros Hspace.
  destruct (WebApi._readAccessToken (Some (UserInfoRequest.authorizationHeader accessToken)))
    as [token|] eqn:Hread; [|reflexivity].
  exfalso. apply readAccessToken_some in Hread as (header & [= <-] & Hs).
  apply split_bearer in Hs as [Heq Hclean].
  unfold UserInfoRequest.authorizationHeader in Heq.
  injection Heq as Heq. change (accessToken = token) in Heq. congruence.
Qed.

(** ** Typed errors *)

Section TypedErrors.

Import ErrorUtils.

Context {codes : BaseErrorCodes}.

(** X6. An [ExtendedError] becomes an [ApiError] with the same code,
    message and stack and HTTP status 500, with the details of the error
    when it has any and empty details otherwise. *)
Theorem extended_error_keeps_its_fields (x : ExtendedError) :
  exists apiError,
    fromException (IsExtendedError x) = Return (inl apiError)
    /\ statusCode apiError = 500
    /\ code apiError = ext_code x
    /\ message apiError = ext_message x
    /\ stack apiError = ext_stack x
    /\ details apiError = default "" (ext_details x).
Proof.
  unfold fromException, tryConvertToApiError.
  destruct (ext_details x) as [d|] eqn:Hd.
  - destruct d as [|c rest]; simpl; eexists; split; try reflexivity;
      simpl; rewrite ?Hd; repeat split; reflexivity.
  - eexists. split; [reflexivity|]. simpl. repeat split; reflexivity.
Qed.

(** X7. For every thrown value that is not a typed error and not [null]
    or [undefined], and that has a message that is not empty or a
    [toString] to call, [createApiError] returns an error with HTTP status
    500 whose code and message are the ones given when they are not empty
    and the defaults otherwise, so neither is empty when the default code is
    not; its stack is the one of the thrown value; and its details are never
    the text [[object Object]] unless that is the message of the thrown
    value. For a thrown object with neither message nor [toString],
    [createApiError] itself throws. *)
Theorem createApiError_fills_defaults
    (thrown : Thrown) (errorCode message' : option string) :
  (readable (IsOther thrown) ->
   exists apiError,
     createApiError (IsOther thrown) errorCode message' = Return apiError
     /\ statusCode apiError = 500
     /\ code apiError = orDefault errorCode serverError
     /\ message apiError = orDefault message' defaultMessage
     /\ stack apiError = thrown_stack thrown
     /\ (Js.truthy_string serverError = true -> Js.truthy_string (code apiError) = true)
     /\ Js.truthy_string (message apiError) = true
     /\ (details apiError = "[object Object]" ->
         thrown_message thrown = Some "[object Object]"))
  /\ (~ readable (IsOther thrown) ->
      exists typeError,
        createApiError (IsOther thrown) errorCode message' = Throw typeError).
Proof.
  assert (forall given default,
             Js.truthy_string default = true ->
             Js.truthy_string (orDefault given default) = true) as Hor.
  { intros given default Hd. unfold orDefault.
    destruct given as [g|]; [destruct (Js.truthy_string g) eqn:Hg|]; assumption. }
  destruct (getExceptionDetailsMessage_readable thrown) as [Hread Hthrow].
  unfold createApiError. cbn [observe readable]. split.
  - intros Hreadable. destruct (Hread Hreadable) as [text Htext]. rewrite Htext.
    eexists. split; [reflexivity|]. simpl.
    repeat split.
    + intros Hdefault. apply Hor. assumption.
    + apply Hor. reflexivity.
    + intros ->. revert Htext.
      unfold _getExceptionDetailsMessage, detailsOfToString.
      destruct (thrown_message thrown) as [m|].
      * destruct (Js.truthy_string m); [intros [= ->]; reflexivity|].
        destruct (thrown_toString thrown) as [t|]; [|discriminate].
        case_bool_decide; [discriminate|]. intros [= Heq]. congruence.
      * destruct (thrown_toString thrown) as [t|]; [|discriminate].
        case_bool_decide; [discriminate|]. intros [= Heq]. congruence.
  - intros Hnot. destruct (Hthrow Hnot) as [typeError ->]. eexists. reflexivity.
Qed.

End TypedErrors.

Lemma createApiError_fills_defaults_witness :
  (exists apiError,
      ErrorUtils.createApiError (codes := sampleCodes) thrownString (Some "") None
      = ErrorUtils.Return apiError
      /\ ErrorUtils.code apiError = "server_error")
  /\ (exists typeError,
        ErrorUtils.createApiError (codes := sampleCodes) bareObject None None
        = ErrorUtils.Throw typeError).
Proof.
  split.
  - destruct (proj1 (createApiError_fills_defaults (codes := sampleCodes)
                       {| ErrorUtils.thrown_stack := None;
                          ErrorUtils.thrown_message := None;
                          ErrorUtils.thrown_toString := Some "socket hang up" |}
                       (Some "") None))
      as (apiError & Hreturn & _ & Hcode & _).
    + right. eexists. reflexivity.
    + exists apiError. split; [exact Hreturn|exact Hcode].
  - apply (proj2 (createApiError_fills_defaults (codes := sampleCodes)
                    {| ErrorUtils.thrown_stack := None;
                       ErrorUtils.thrown_message := None;
                       ErrorUtils.thrown_toString := None |}
                    None None)).
    intros [Hm|[x Hx]]; discriminate.
Defined.

Example createApiError_empty_code_given :
  ErrorUtils.createApiError (codes := sampleCodes) thrownString (Some "") None
  = ErrorUtils.Return
      {| ErrorUtils.statusCode := 500;
         ErrorUtils.code := "server_error";
         ErrorUtils.message := "An unexpected exception occurred in the API";
         ErrorUtils.stack := None;
         ErrorUtils.details := "socket hang up" |}.
Proof. reflexivity. Qed.

(** ** One handler from start to end *)

Section OneHandler.

Import Http ClaimsHandler Process.

Context {handled : Type} {errorHandler : ErrorHandler.Ops handled}.
Variable oauthConfig : OAuthConfig.

Local Open Scope list_scope.

Lemma step_lookup_memoized
    (w : Process.world (handled := handled)) (m : Metadata) (id : nat) (token : string) :
  metadata w = Some m ->
  handlers w !! id = None ->
  step oauthConfig w (LookupClaims id token)
  = Some {| metadata := Some m;
            handlers :=
              <[id := {| accessToken := token; at_ := AwaitingIntrospection |}]> (handlers w);
            outbound := outbound w ++ [Introspection (introspection_endpoint m) token] |}.
Proof.
  intros Hm Hfresh. cbn [step]. rewrite Hfresh.
  unfold lookupClaims, start_readTokenData. rewrite Hm. reflexivity.
Qed.

Lemma step_lookup_empty
    (w : Process.world (handled := handled)) (id : nat) (token : string) :
  metadata w = None ->
  handlers w !! id = None ->
  step oauthConfig w (LookupClaims id token)
  = Some {| metadata := None;
            handlers :=
              <[id := {| accessToken := token; at_ := AwaitingMetadata |}]> (handlers w);
            outbound := outbound w ++ [Discovery (metadataEndpoint oauthConfig)] |}.
Proof.
  intros Hm Hfresh. cbn [step]. rewrite Hfresh.
  unfold lookupClaims. rewrite Hm. reflexivity.
Qed.

Lemma step_metadata_failed
    (w : Process.world (handled := handled)) (id : nat) (token : string)
    (o : Http.outcome Metadata) (e : Http.failure handled) :
  handlers w !! id = Some {| accessToken := token; at_ := AwaitingMetadata |} ->
  RequestPromise o = Js.Rejected e ->
  step oauthConfig w (MetadataArrives id o)
  = Some (finish w id token
            (Js.Rejected (ErrorHandler.fromMetadataError e (metadataEndpoint oauthConfig)))).
Proof.
  intros Hh Hfail. cbn [step]. rewrite Hh.
  unfold _getMetadata_settle. rewrite Hfail. reflexivity.
Qed.

Lemma step_introspection_active
    (w : Process.world (handled := handled)) (m : Metadata) (id : nat) (token : string)
    (statusCode : Z) (data : IntrospectionData) :
  metadata w = Some m ->
  handlers w !! id = Some {| accessToken := token; at_ := AwaitingIntrospection |} ->
  is2xx statusCode = true ->
  Js.truthy (active data) = true ->
  step oauthConfig w (IntrospectionArrives id (Response statusCode data))
  = Some {| metadata := Some m;
            handlers :=
              <[id := {| accessToken := token;
                         at_ := AwaitingUserInfo
                                  {| td_exp := exp data;
                                     td_claims := {| userId := sub data;
                                                     applicationId := cid data;
                                                     claims_scope := scope data;
                                                     given_name := Js.VUndefined;
                                                     family_name := Js.VUndefined;
                                                     email := Js.VUndefined |} |} |}]>
                (handlers w);
            outbound := outbound w ++ [UserInfoCall (userinfo_endpoint m) token] |}.
Proof.
  intros Hm Hh H2xx Hactive. cbn [step]. rewrite Hh, Hm.
  cbn [_readTokenData]. unfold _readTokenData_settle, RequestPromise.
  rewrite H2xx. cbn [Js.then_]. rewrite Hactive. cbn [negb Js.catch_].
  unfold start_readCentralUserData. rewrite Hm. reflexivity.
Qed.

Lemma step_userinfo
    (w : Process.world (handled := handled)) (m : Metadata) (id : nat) (token : string)
    (tokenData : TokenData) (o : Http.outcome UserInfo) :
  metadata w = Some m ->
  handlers w !! id = Some {| accessToken := token; at_ := AwaitingUserInfo tokenData |} ->
  step oauthConfig w (UserInfoArrives id o)
  = Some (finish w id token
            (Js.then_ (_readCentralUserData_settle (userinfo_endpoint m) tokenData o)
                      _readProductClaims)).
Proof. intros Hm Hh. cbn [step]. rewrite Hh, Hm. reflexivity. Qed.

(** X8. With the metadata memoized, a handler whose introspection call
    finds the token active and whose user info call succeeds ends with the
    expiry, subject, client and scope of the introspection response and the
    names and e-mail of the user info response; it has sent one request to
    each of the two memoized endpoints, both with its own token, and has
    left the metadata and the other handlers as they were. *)
Theorem lookupClaims_collects_both_responses
    (w : Process.world (handled := handled)) (m : Metadata) (id : nat) (token : string)
    (status1 status2 : Z) (data : IntrospectionData) (info : UserInfo) :
  metadata w = Some m ->
  handlers w !! id = None ->
  is2xx status1 = true ->
  Js.truthy (active data) = true ->
  is2xx status2 = true ->
  exists w',
    run oauthConfig w
      [ LookupClaims id token;
        IntrospectionArrives id (Response status1 data);
        UserInfoArrives id (Response status2 info) ] = Some w'
    /\ handlers w' !! id
       = Some {| accessToken := token;
                 at_ := Finished (Js.Resolved
                          {| td_exp := exp data;
                             td_claims := {| userId := sub data;
                                             applicationId := cid data;
                                             claims_scope := scope data;
                                             given_name := ui_given_name info;
                                             family_name := ui_family_name info;
                                             email := ui_email info |} |}) |}
    /\ outbound w'
       = outbound w ++ [ Introspection (introspection_endpoint m) token;
                         UserInfoCall (userinfo_endpoint m) token ]
    /\ metadata w' = Some m
    /\ (forall other, other <> id -> handlers w' !! other = handlers w !! other).
Proof.
  intros Hm Hfresh H1 Hactive H2.
  cbn [run].
  rewrite (step_lookup_memoized w m id token Hm Hfresh).
  erewrite (step_introspection_active _ m id token status1 data);
    [|reflexivity|apply lookup_insert_eq|assumption|assumption].
  erewrite (step_userinfo _ m id token);
    [|reflexivity|apply lookup_insert_eq].
  unfold _readCentralUserData_settle, RequestPromise. rewrite H2.
  cbn [Js.then_ Js.catch_ _readProductClaims td_exp td_claims userId applicationId
       claims_scope].
  eexists. split; [reflexivity|]. unfold finish. cbn [handlers metadata outbound].
  split; [apply lookup_insert_eq|].
  split; [rewrite <- app_assoc; reflexivity|].
  split; [reflexivity|].
  intros other Hother. rewrite !lookup_insert_ne by congruence. reflexivity.
Qed.

(** X9. When the user info call fails, the whole lookup is rejected with
    what [fromUserInfoError] makes of the failure, although the token was
    found active: no claims are given without the user info. *)
Theorem lookupClaims_rejected_without_user_info
    (w : Process.world (handled := handled)) (m : Metadata) (id : nat) (token : string)
    (status1 : Z) (data : IntrospectionData) (o : Http.outcome UserInfo)
    (e : Http.failure handled) :
  metadata w = Some m ->
  handlers w !! id = None ->
  is2xx status1 = true ->
  Js.truthy (active data) = true ->
  RequestPromise o = Js.Rejected e ->
  exists w',
    run oauthConfig w
      [ LookupClaims id token;
        IntrospectionArrives id (Response status1 data);
        UserInfoArrives id o ] = Some w'
    /\ handlers w' !! id
       = Some {| accessToken := token;
                 at_ := Finished (Js.Rejected
                          (ErrorHandler.fromUserInfoError e (userinfo_endpoint m))) |}
    /\ ~ served w' id.
Proof.
  intros Hm Hfresh H1 Hactive Hfail.
  cbn [run].
  rewrite (step_lookup_memoized w m id token Hm Hfresh).
  erewrite (step_introspection_active _ m id token status1 data);
    [|reflexivity|apply lookup_insert_eq|assumption|assumption].
  erewrite (step_userinfo _ m id token);
    [|reflexivity|apply lookup_insert_eq].
  unfold _readCentralUserData_settle. rewrite Hfail.
  cbn [Js.then_ Js.catch_].
  eexists. split; [reflexivity|]. unfold finish. cbn [handlers].
  split; [apply lookup_insert_eq|].
  intros (token' & tokenData & Hserved). cbn [handlers] in Hserved.
  rewrite lookup_insert_eq in Hserved. discriminate Hserved.
Qed.

(** X10. A discovery request that fails is not remembered: the request
    that made it is rejected with what [fromMetadataError] makes of the
    failure, the metadata stays empty, and the next request sends the
    discovery request again. *)
Theorem failed_discovery_is_retried
    (w : Process.world (handled := handled)) (id next : nat) (token token' : string)
    (o : Http.outcome Metadata) (e : Http.failure handled) :
  metadata w = None ->
  handlers w !! id = None ->
  handlers w !! next = None ->
  next <> id ->
  RequestPromise o = Js.Rejected e ->
  exists w1 w2,
    run oauthConfig w [LookupClaims id token; MetadataArrives id o] = Some w1
    /\ metadata w1 = None
    /\ handlers w1 !! id
       = Some {| accessToken := token;
                 at_ := Finished (Js.Rejected
                          (ErrorHandler.fromMetadataError e (metadataEndpoint oauthConfig))) |}
    /\ step oauthConfig w1 (LookupClaims next token') = Some w2
    /\ outbound w2
       = outbound w ++ [ Discovery (metadataEndpoint oauthConfig);
                         Discovery (metadataEndpoint oauthConfig) ].
Proof.
  intros Hm Hfresh Hnext Hne Hfail.
  cbn [run].
  rewrite (step_lookup_empty w id token Hm Hfresh).
  erewrite (step_metadata_failed _ id token o e);
    [|apply lookup_insert_eq|assumption].
  eexists _, _. split; [reflexivity|]. unfold finish. cbn [handlers metadata outbound].
  split; [reflexivity|].
  split; [apply lookup_insert_eq|].
  rewrite step_lookup_empty; cbn [handlers metadata outbound];
    [|reflexivity|rewrite !lookup_insert_ne by congruence; assumption].
  split; [reflexivity|].
  cbn [outbound]. rewrite <- app_assoc. reflexivity.
Qed.

End OneHandler.

Lemma lookupClaims_collects_both_responses_witness :
  exists w',
    Process.run (errorHandler := ErrorHandler.fromSpec) sampleConfig afterFirstFetch
      [ Process.LookupClaims 1 "token-b";
        Process.IntrospectionArrives 1 (Http.Response 200 activeBody);
        Process.UserInfoArrives 1 (Http.Response 200 aliceInfo) ] = Some w'
    /\ Process.outbound w'
       = (Process.outbound afterFirstFetch
            ++ [ Process.Introspection "https://login.example.com/oauth2/introspect" "token-b";
                 Process.UserInfoCall "https://login.example.com/oauth2/userinfo" "token-b" ])%list.
Proof.
  destruct (lookupClaims_collects_both_responses (errorHandler := ErrorHandler.fromSpec)
              sampleConfig afterFirstFetch sampleMetadata 1 "token-b" 200 200
              activeBody aliceInfo)
    as (w' & Hrun & _ & Hout & _);
    try (vm_compute; reflexivity).
  exists w'. split; assumption.
Defined.

Lemma lookupClaims_rejected_without_user_info_witness :
  exists w',
    Process.run (errorHandler := ErrorHandler.fromSpec) sampleConfig afterFirstFetch
      [ Process.LookupClaims 1 "token-b";
        Process.IntrospectionArrives 1 (Http.Response 200 activeBody);
        Process.UserInfoArrives 1 (Http.Response 503 aliceInfo) ] = Some w'
    /\ ~ Process.served w' 1.
Proof.
  destruct (lookupClaims_rejected_without_user_info (errorHandler := ErrorHandler.fromSpec)
              sampleConfig afterFirstFetch sampleMetadata 1 "token-b" 200
              activeBody (Http.Response 503 aliceInfo) (Http.StatusCodeError 503))
    as (w' & Hrun & _ & Hnot);
    try (vm_compute; reflexivity).
  exists w'. split; assumption.
Defined.

Lemma failed_discovery_is_retried_witness :
  exists w1 w2,
    Process.run (errorHandler := ErrorHandler.fromSpec) sampleConfig Process.initial
      [ Process.LookupClaims 0 "token-a";
        Process.MetadataArrives 0 (Http.TransportFailure "ECONNREFUSED") ] = Some w1
    /\ Process.metadata w1 = None
    /\ Process.step (errorHandler := ErrorHandler.fromSpec) sampleConfig w1
         (Process.LookupClaims 1 "token-b") = Some w2
    /\ Process.discoveryRequests w2 = 2%nat.
Proof.
  destruct (failed_discovery_is_retried (errorHandler := ErrorHandler.fromSpec)
              sampleConfig Process.initial 0 1 "token-a" "token-b"
              (Http.TransportFailure "ECONNREFUSED") (Http.RequestError "ECONNREFUSED"))
    as (w1 & w2 & Hrun & Hm & _ & Hstep & Hout);
    try reflexivity; try discriminate.
  exists w1, w2. repeat split; try assumption.
  unfold Process.discoveryRequests. rewrite Hout. reflexivity.
Defined.

(** ** Lookups and puts of the cache *)

Section CacheLookups.

Import Claims NodeCache ClaimsCache.

Context {claimsProvider : ClaimsProvider}.

(** X11. A lookup returns claims exactly when the digest has an entry that
    is alive and whose text is not empty, and they are the claims read
    from that text. The lookup changes the cache in one case only: an entry
    of the digest that has expired is removed; entries of other digests and
    the configured maximum are never touched. *)
Theorem lookup_reads_and_evicts (c : cache) (now : Z) (h : string) :
  let result := fst (getClaimsForToken c now h) in
  let after := snd (getClaimsForToken c now h) in
  (forall claims,
      result = Some claims <->
      exists w, data c !! h = Some w /\ _check now w = true
                /\ Js.truthy_string (v w) = true
                /\ deserializeFromCache (v w) = claims)
  /\ stdTTL after = stdTTL c
  /\ (forall other, other <> h -> data after !! other = data c !! other)
  /\ (data after !! h
      = match data c !! h with
        | Some w => if _check now w then Some w else None
        | None => None
        end).
Proof.
  intros result after. subst result after.
  split; [intros claims; apply getClaimsForToken_some|].
  rewrite getClaimsForToken_cache.
  split; [apply get_keeps_stdTTL|].
  unfold get. destruct (data c !! h) as [w|] eqn:Hw.
  - destruct (_check now w); simpl.
    + split; [reflexivity|assumption].
    + split; [intros other Hother; apply lookup_delete_ne; congruence|].
      apply lookup_delete_eq.
  - simpl. split; [reflexivity|assumption].
Qed.

(** X12. A put for one digest never changes what a lookup of another
    digest returns. *)
Theorem put_leaves_other_digests
    (c : cache) (now later : Z) (h other : string) (claims : ApiClaims) :
  other <> h ->
  fst (getClaimsForToken (addClaimsForToken c now h claims) later other)
  = fst (getClaimsForToken c later other).
Proof.
  intros Hother.
  destruct (addClaimsForToken_cases c now h claims) as [[_ ->]|[_ ->]]; [reflexivity|].
  unfold getClaimsForToken, get.
  rewrite set_lookup_other by congruence.
  destruct (data c !! other) as [w|]; [|reflexivity].
  destruct (_check later w); [|reflexivity].
  simpl. destruct (Js.truthy_string (v w)); reflexivity.
Qed.

(** The put with one reading of the clock is the put with two readings
    that coincide. *)
Lemma addClaimsForToken_same_reading
    (c : cache) (now : Z) (h : string) (claims : ApiClaims) :
  addClaimsForToken c now h claims = addClaimsForTokenAt c now now h claims.
Proof. reflexivity. Qed.

Lemma addClaimsForTokenAt_cases
    (c : cache) (now setNow : Z) (accessTokenHash : string) (claims : ApiClaims) :
  (expiry (token claims) <= epochSeconds now
   /\ addClaimsForTokenAt c now setNow accessTokenHash claims = c)
  \/ (epochSeconds now < expiry (token claims)
      /\ addClaimsForTokenAt c now setNow accessTokenHash claims
         = set c setNow accessTokenHash (serializeToCache claims)
             (Some (Z.min (expiry (token claims) - epochSeconds now) (stdTTL c)))).
Proof.
  destruct (secondsToCache c now claims) as [ttl|] eqn:Hs.
  - right. pose proof (proj1 (secondsToCache_some c now claims ttl) Hs) as [Hvalid ->].
    split; [assumption|]. unfold addClaimsForTokenAt. rewrite Hs. reflexivity.
  - left. split; [apply (secondsToCache_none c); assumption|].
    unfold addClaimsForTokenAt. rewrite Hs. reflexivity.
Qed.

(** X13. The put reads the clock at [now] for the seconds left to the token
    and node-cache reads it again at [setNow] when it stores. With a
    positive maximum, the claims put for a token that has not expired at
    [now] are found by every lookup of the digest up to the millisecond
    [setNow + 1000 * min(expiry - floor(now / 1000), maximum)] and by no
    lookup after it, when their text is not empty; what is found is the
    text read back. *)
Theorem put_then_lookup_until_expiry
    (c : cache) (now setNow later : Z) (h : string) (claims : ApiClaims) :
  0 < stdTTL c ->
  0 <= setNow ->
  epochSeconds now < expiry (token claims) ->
  Js.truthy_string (serializeToCache claims) = true ->
  fst (getClaimsForToken (addClaimsForTokenAt c now setNow h claims) later h)
  = if later <=? setNow + 1000 * Z.min (expiry (token claims) - epochSeconds now) (stdTTL c)
    then Some (deserializeFromCache (serializeToCache claims))
    else None.
Proof.
  intros Hmax Hnow Hvalid Htext.
  destruct (addClaimsForTokenAt_cases c now setNow h claims) as [[Hexp _]|[_ ->]]; [lia|].
  set (ttl := Z.min (expiry (token claims) - epochSeconds now) (stdTTL c)).
  assert (0 < ttl) as Hpos by (subst ttl; lia).
  unfold getClaimsForToken, get. rewrite set_lookup_same.
  unfold _check, _wrap, livetime. simpl.
  destruct (Z.eqb_spec ttl 0) as [Hz|_]; [lia|]. simpl.
  destruct (Z.eqb_spec (setNow + ttl * 1000) 0) as [Hz|_]; [lia|]. simpl.
  destruct (Z.ltb_spec (setNow + ttl * 1000) later) as [Hlate|Hin];
    destruct (Z.leb_spec later (setNow + 1000 * ttl)) as [Hle|Hgt]; try lia; simpl.
  - reflexivity.
  - rewrite Htext. reflexivity.
Qed.

(** X14. The put reads the clock at [now] and node-cache reads it again at
    [setNow], not earlier. With a positive maximum, the claims put for a
    token are not found by any lookup from one second plus the delay
    [setNow - now] after the expiry of the token on: an entry outlives its
    token by less than a second and the time between the two readings. *)
Theorem entry_does_not_outlive_its_token
    (c : cache) (now setNow later : Z) (h : string) (claims : ApiClaims) :
  0 < stdTTL c ->
  0 <= now <= setNow ->
  epochSeconds now < expiry (token claims) ->
  1000 * (expiry (token claims) + 1) + (setNow - now) <= later ->
  fst (getClaimsForToken (addClaimsForTokenAt c now setNow h claims) later h) = None.
Proof.
  intros Hmax Hnow Hvalid Hlater.
  destruct (addClaimsForTokenAt_cases c now setNow h claims) as [[Hexp _]|[_ ->]]; [lia|].
  set (ttl := Z.min (expiry (token claims) - epochSeconds now) (stdTTL c)).
  assert (0 < ttl) as Hpos by (subst ttl; lia).
  assert (setNow + ttl * 1000 < later) as Hdead.
  { unfold epochSeconds in *.
    pose proof (Z.div_mod now 1000 ltac:(lia)) as Hdiv.
    pose proof (Z.mod_pos_bound now 1000 ltac:(lia)) as Hmod.
    subst ttl. lia. }
  unfold getClaimsForToken, get. rewrite set_lookup_same.
  unfold _check, _wrap, livetime. simpl.
  destruct (Z.eqb_spec ttl 0) as [Hz|_]; [lia|]. simpl.
  destruct (Z.eqb_spec (setNow + ttl * 1000) 0) as [Hz|_]; [lia|]. simpl.
  destruct (Z.ltb_spec (setNow + ttl * 1000) later) as [_|Hin]; [reflexivity|lia].
Qed.

(** X15. With a configured maximum of zero minutes, the claims put for a
    token that has not expired are stored without expiry: every later
    lookup of the digest finds them, however late. *)
Theorem zero_maximum_stores_forever
    (now later : Z) (h : string) (claims : ApiClaims) :
  epochSeconds now < expiry (token claims) ->
  Js.truthy_string (serializeToCache claims) = true ->
  expiryInstant (addClaimsForToken (create 0) now h claims) h = Some 0
  /\ fst (getClaimsForToken (addClaimsForToken (create 0) now h claims) later h)
     = Some (deserializeFromCache (serializeToCache claims)).
Proof.
  intros Hvalid Htext.
  destruct (addClaimsForToken_cases (create 0) now h claims) as [[Hexp _]|[_ ->]]; [lia|].
  change (stdTTL (create 0)) with 0.
  rewrite Z.min_r by lia.
  split.
  - unfold expiryInstant. rewrite set_lookup_same. reflexivity.
  - unfold getClaimsForToken, get. rewrite set_lookup_same. simpl.
    rewrite Htext. reflexivity.
Qed.

End CacheLookups.

Lemma put_leaves_other_digests_witness :
  fst (ClaimsCache.getClaimsForToken (claimsProvider := SampleProvider.provider)
         (ClaimsCache.addClaimsForToken (claimsProvider := SampleProvider.provider)
            cacheAfterFirstPut 1000 "hash-of-other-token" (SampleProvider.alice 7200))
         2000 "hash-of-token")
  = fst (ClaimsCache.getClaimsForToken (claimsProvider := SampleProvider.provider)
           cacheAfterFirstPut 2000 "hash-of-token").
Proof.
  apply (put_leaves_other_digests (claimsProvider := SampleProvider.provider)
           cacheAfterFirstPut 1000 2000 "hash-of-other-token" "hash-of-token"
           (SampleProvider.alice 7200)).
  discriminate.
Defined.

Lemma put_then_lookup_until_expiry_witness :
  fst (ClaimsCache.getClaimsForToken (claimsProvider := SampleProvider.provider)
         (ClaimsCache.addClaimsForTokenAt (claimsProvider := SampleProvider.provider)
            fiveMinutes 999 1002 "hash-of-token" (SampleProvider.alice 3600))
         301002 "hash-of-token")
  = (if 301002 <=? 1002 + 1000 * Z.min (3600 - ClaimsCache.epochSeconds 999) 300
     then Some (Claims.deserializeFromCache (ClaimsProvider := SampleProvider.provider)
                  (Claims.serializeToCache (ClaimsProvider := SampleProvider.provider)
                     (SampleProvider.alice 3600)))
     else None).
Proof.
  apply (put_then_lookup_until_expiry (claimsProvider := SampleProvider.provider)
           fiveMinutes 999 1002 301002 "hash-of-token" (SampleProvider.alice 3600));
    vm_compute; congruence.
Defined.

Lemma entry_does_not_outlive_its_token_witness :
  fst (ClaimsCache.getClaimsForToken (claimsProvider := SampleProvider.provider)
         (ClaimsCache.addClaimsForTokenAt (claimsProvider := SampleProvider.provider)
            (ClaimsCache.create 30) 999 1002 "hash-of-token" (SampleProvider.alice 10))
         11003 "hash-of-token")
  = None.
Proof.
  apply (entry_does_not_outlive_its_token (claimsProvider := SampleProvider.provider)
           (ClaimsCache.create 30) 999 1002 11003 "hash-of-token" (SampleProvider.alice 10));
    vm_compute; try congruence.
  split; congruence.
Defined.

Lemma zero_maximum_stores_forever_witness :
  ClaimsCache.expiryInstant
    (ClaimsCache.addClaimsForToken (claimsProvider := SampleProvider.provider)
       (ClaimsCache.create 0) 0 "hash-of-token" (SampleProvider.alice 10))
    "hash-of-token" = Some 0
  /\ fst (ClaimsCache.getClaimsForToken (claimsProvider := SampleProvider.provider)
            (ClaimsCache.addClaimsForToken (claimsProvider := SampleProvider.provider)
               (ClaimsCache.create 0) 0 "hash-of-token" (SampleProvider.alice 10))
            86400000 "hash-of-token")
     = Some (Claims.deserializeFromCache (ClaimsProvider := SampleProvider.provider)
               (Claims.serializeToCache (ClaimsProvider := SampleProvider.provider)
                  (SampleProvider.alice 10))).
Proof.
  apply (zero_maximum_stores_forever (claimsProvider := SampleProvider.provider)
           0 86400000 "hash-of-token" (SampleProvider.alice 10));
    vm_compute; congruence.
Defined.

(** ** Histories of the cache *)

Section CacheHistories.

Import Claims NodeCache ClaimsCache CacheHistory.

Context {claimsProvider : ClaimsProvider}.

Lemma apply_bounded (maximum latest : Z) (c : cache) (op : operation) :
  0 < maximum ->
  0 <= time op <= latest ->
  bounded maximum latest c ->
  bounded maximum latest (apply c op).
Proof.
  intros Hmax Htime [Hstd Hentries].
  destruct op as [now h|now h claims]; simpl in *.
  - rewrite getClaimsForToken_cache. split.
    + rewrite get_keeps_stdTTL. assumption.
    + intros h' w Hw. apply (Hentries h'). eapply get_keeps_entries. eassumption.
  - destruct (addClaimsForToken_cases c now h claims) as [[_ ->]|[Hvalid ->]];
      [split; assumption|].
    split; [assumption|].
    intros h' w. simpl.
    destruct (decide (h = h')) as [->|Hne].
    + rewrite lookup_insert_eq. intros [= <-]. simpl.
      destruct (Z.eqb_spec (Z.min (expiry (token claims) - epochSeconds now) (stdTTL c)) 0);
        nia.
    + rewrite lookup_insert_ne by assumption. apply Hentries.
Qed.

(** X16. In a cache created with a positive number of minutes, after any
    sequence of lookups and puts, every entry has an expiry instant, and it
    is at most the configured maximum after the latest of the operations:
    no entry is kept for longer than the maximum, whatever the expiry of
    the tokens. *)
Theorem entries_expire_within_maximum
    (timeToLiveMinutes latest : Z) (ops : list operation) :
  0 < timeToLiveMinutes ->
  Forall (fun op => 0 <= time op <= latest) ops ->
  forall h w,
    data (replay (create timeToLiveMinutes) ops) !! h = Some w ->
    0 < t w <= latest + timeToLiveMinutes * 60 * 1000.
Proof.
  intros Hminutes Hops.
  assert (bounded (timeToLiveMinutes * 60) latest (replay (create timeToLiveMinutes) ops))
    as [_ Hbound].
  { unfold replay.
    assert (bounded (timeToLiveMinutes * 60) latest (create timeToLiveMinutes)) as Hstart.
    { split; [reflexivity|]. intros h w Hw. simpl in Hw.
      rewrite lookup_empty in Hw. discriminate. }
    revert Hstart. generalize (create timeToLiveMinutes) as c.
    induction Hops as [|op rest Hop _ IH]; intros c Hc; simpl; [assumption|].
    apply IH. apply apply_bounded; [lia|assumption|assumption]. }
  exact Hbound.
Qed.

End CacheHistories.

(** ** The bindings of a registration *)

Section Registration.

Import BaseCompositionRoot.

(** X17. Registration only adds bindings, and on an empty container it
    binds no identifier twice: every identifier is bound exactly once,
    except the claims cache and the JWKS client, which are bound once or
    not at all. *)
Theorem register_binds_each_identifier_once
    (oauth : OAuthConfiguration) (unsecured : list string) (proxyUrl : string) :
  (forall r : root, exists added, _container (register r) = (_container r ++ added)%list)
  /\ forall id,
       (length (bound (_container (registered oauth unsecured proxyUrl)) id) <= 1)%nat
       /\ (id <> ClaimsCacheId -> id <> JwksClientId ->
           length (bound (_container (registered oauth unsecured proxyUrl)) id) = 1%nat).
Proof.
  split.
  - intros r. unfold register, _registerClaimsDependencies, _registerOAuthDependencies,
      _registerBaseDependencies, bind. simpl.
    do 2 case_bool_decide; rewrite <- ?app_assoc; eexists; reflexivity.
  - intros id. unfold registered, register, _registerClaimsDependencies,
      _registerOAuthDependencies, _registerBaseDependencies, configured. simpl.
    do 2 case_bool_decide; destruct id; simpl; split; try lia; congruence.
Qed.

End Registration.

Lemma entries_expire_within_maximum_witness :
  NodeCache.data
    (CacheHistory.replay (claimsProvider := SampleProvider.provider)
       (ClaimsCache.create 5) sampleHistory) !! "hash-of-token"
  = Some {| NodeCache.t := 360000;
            NodeCache.v := Claims.serializeToCache (ClaimsProvider := SampleProvider.provider)
                             (SampleProvider.alice 7200) |}
  /\ 0 < 360000 <= 60000 + 5 * 60 * 1000.
Proof.
  assert (NodeCache.data
            (CacheHistory.replay (claimsProvider := SampleProvider.provider)
               (ClaimsCache.create 5) sampleHistory) !! "hash-of-token"
          = Some {| NodeCache.t := 360000;
                    NodeCache.v := Claims.serializeToCache
                                     (ClaimsProvider := SampleProvider.provider)
                                     (SampleProvider.alice 7200) |}) as Hentry
    by (vm_compute; reflexivity).
  split; [exact Hentry|].
  apply (entries_expire_within_maximum (claimsProvider := SampleProvider.provider)
           5 60000 sampleHistory ltac:(lia)
           ltac:(repeat constructor; simpl; lia)
           "hash-of-token" _ Hentry).
Defined.

(** ** The token data of an introspection response *)

Section TokenDataOfResponse.

Import Http ClaimsHandler.

Context {handled : Type} {errorHandler : ErrorHandler.Ops handled}.

(** X18. Whatever the error handler does, [_readTokenData] resolves
    exactly for a 2xx response whose [active] field is truthy, and then
    with the expiry of the response and its subject, client and scope as
    user id, application id and scope, the names and e-mail being not yet
    set. Every other answer rejects the promise: a missing, null, zero or
    empty [active] counts as inactive, any other value as active. *)
Theorem readTokenData_resolves_for_truthy_active
    (m : Metadata) (o : outcome IntrospectionData) :
  (forall tokenData,
      _readTokenData (Some m) o = Js.Resolved tokenData <->
      exists statusCode data,
        o = Response statusCode data
        /\ is2xx statusCode = true
        /\ Js.truthy (active data) = true
        /\ tokenData = {| td_exp := exp data;
                          td_claims := {| userId := sub data;
                                          applicationId := cid data;
                                          claims_scope := scope data;
                                          given_name := Js.VUndefined;
                                          family_name := Js.VUndefined;
                                          email := Js.VUndefined |} |})
  /\ ((forall statusCode data,
          o = Response statusCode data ->
          is2xx statusCode = true -> Js.truthy (active data) = false) ->
      exists e, _readTokenData (Some m) o = Js.Rejected e).
Proof.
  split.
  - intros tokenData. split.
    + destruct o as [cause|statusCode data]; [discriminate|].
      destruct (is2xx statusCode) eqn:H2xx.
      * destruct (Js.truthy (active data)) eqn:Hactive.
        -- cbn [_readTokenData]. unfold _readTokenData_settle, RequestPromise.
           rewrite H2xx. cbn [Js.then_]. rewrite Hactive. cbn [negb Js.catch_].
           intros [= <-]. exists statusCode, data. auto.
        -- rewrite readTokenData_inactive_passes_catch by assumption. discriminate.
      * rewrite readTokenData_bad_status by assumption. discriminate.
    + intros (statusCode & data & -> & H2xx & Hactive & ->).
      cbn [_readTokenData]. unfold _readTokenData_settle, RequestPromise.
      rewrite H2xx. cbn [Js.then_]. rewrite Hactive. reflexivity.
  - intros Hinactive. destruct o as [cause|statusCode data].
    + eexists. apply readTokenData_transport_failure.
    + destruct (is2xx statusCode) eqn:H2xx.
      * eexists. apply readTokenData_inactive_passes_catch; [assumption|].
        apply (Hinactive statusCode data); auto.
      * eexists. apply readTokenData_bad_status. assumption.
Qed.

End TokenDataOfResponse.

Example readTokenData_active_as_text :
  exists tokenData,
    ClaimsHandler._readTokenData (errorHandler := ErrorHandler.fromSpec)
      (Some sampleMetadata) (Http.Response 200 activeAsText)
    = Js.Resolved tokenData.
Proof. eexists. reflexivity. Qed.
